(** * saveCellExecution: the execution capture and submission pipeline

    Shallow embedding of
    [src/extension/messages/platformRequest/saveCellExecution.ts]
    and of the [OutputType] enumeration of [src/constants.ts].

    The source is one [async] function over a module-level slot
    [currentCts].  It is embedded as a program in a small monad [M]:
    a state transformer over a [World] (the store of cancellation token
    sources, the slot, the listener registry of
    [AuthSessionChangeHandler], and the trace of effects performed by the
    run) returning a JavaScript completion (normal, [return], [throw]).
    Every [await] of the source is a named suspension point ([Step]).
    While the run is suspended, other invocations of the function may act
    on the slot, in any order and number: a newer one begins (lines 67-72)
    or the one whose token is installed ends (lines 389-394); and the
    awaited collaborator may reject.

    Modelling conventions:
    - strings are byte strings (UTF-8), so [TextEncoder.encode] is the
      list of bytes of the string;
    - JavaScript numbers that hold process ids and exit codes are [Z];
    - collaborators outside the file are given by their results in [Env];
      awaited collaborators may reject ([fails]), synchronous ones are
      taken as total;
    - [postClientMessage] posts when called and does not reject;
    - a cancellation token source and its token share one name, the index
      of the source in the store. *)

From Stdlib Require Import String Ascii List Bool ZArith Lia Arith.
From Stdlib Require Import Strings.Byte.
Import ListNotations.

Local Open Scope string_scope.
Local Open Scope list_scope.

Set Implicit Arguments.

(* ===================================================================== *)
(** * JavaScript helpers *)

Module Js.

(** Truthiness of a string value: only the empty string is falsy. *)
Definition truthy (s : string) : bool := negb (String.eqb s "").

(** Truthiness of [string | undefined]. *)
Definition truthyOpt (o : option string) : bool :=
  match o with
  | Some s => truthy s
  | None => false
  end.

Definition isSome {A} (o : option A) : bool :=
  match o with Some _ => true | None => false end.

(** [a || b] on strings. *)
Definition orElse (o : option string) (d : string) : string :=
  if truthyOpt o then match o with Some s => s | None => d end else d.

(** Rendering of [string | undefined] inside a template literal. *)
Definition template (o : option string) : string :=
  match o with Some s => s | None => "undefined" end.

(** [['a', 'b'].includes(s)] *)
Definition includes (l : list string) (s : string) : bool :=
  existsb (String.eqb s) l.

(** [path.split('/').pop()]: the text after the last slash. *)
Fixpoint lastSegment (acc : string) (s : string) : string :=
  match s with
  | EmptyString => acc
  | String c rest =>
      if Ascii.eqb c "/"%char then lastSegment "" rest
      else lastSegment (acc ++ String c "") rest
  end.

Definition hexDigit (n : nat) : ascii :=
  match n with
  | 0 => "0" | 1 => "1" | 2 => "2" | 3 => "3" | 4 => "4" | 5 => "5"
  | 6 => "6" | 7 => "7" | 8 => "8" | 9 => "9" | 10 => "A" | 11 => "B"
  | 12 => "C" | 13 => "D" | 14 => "E" | _ => "F"
  end%char.

Definition unreserved (c : ascii) : bool :=
  let n := nat_of_ascii c in
  (Nat.leb 65 n && Nat.leb n 90) || (Nat.leb 97 n && Nat.leb n 122)
  || (Nat.leb 48 n && Nat.leb n 57)
  || existsb (Ascii.eqb c) ["-"; "_"; "."; "!"; "~"; "*"; "'"; "("; ")"]%char.

(** [encodeURIComponent] on a UTF-8 byte string. *)
Fixpoint encodeURIComponent (s : string) : string :=
  match s with
  | EmptyString => EmptyString
  | String c rest =>
      if unreserved c then String c (encodeURIComponent rest)
      else
        let n := nat_of_ascii c in
        String "%" (String (hexDigit (n / 16)) (String (hexDigit (n mod 16))
                   (encodeURIComponent rest)))
  end.

(** Thrown values: [reject(undefined)] or an [Error] with a message. *)
Inductive Thrown :=
| Undefined
| Error (message : string).

End Js.

(* ===================================================================== *)
(** * constants.ts *)

(** The enumeration as declared in [src/constants.ts]. *)
Inductive OutputType := shell | vercel | html | script | error.

Definition OutputType_value (t : OutputType) : string :=
  match t with
  | shell => "stateful.runme/shell-stdout"
  | vercel => "stateful.runme/vercel-stdout"
  | html => "stateful.runme/html-stdout"
  | script => "stateful.runme/script-stdout"
  | error => "error"
  end.

(* ===================================================================== *)
(** * Data model *)

Definition bytes := list byte.

Record Session := { accessToken : string }.

(** Frontmatter, as far as the function reads it: [runme.id], [runme.version]. *)
Record RunmeFrontmatter := { fm_id : option string; fm_version : option string }.
Record Frontmatter := { fm_runme : option RunmeFrontmatter }.

Definition fmRunmeId (fm : option Frontmatter) : option string :=
  match fm with
  | Some {| fm_runme := Some r |} => fm_id r
  | _ => None
  end.

Definition fmRunmeVersion (fm : option Frontmatter) : option string :=
  match fm with
  | Some {| fm_runme := Some r |} => fm_version r
  | _ => None
  end.

(** The metadata of the notebook document, as far as the function reads
    it: the keys RUNME_FRONTMATTER_PARSED and 'runme.dev/frontmatter'. *)
Record NotebookMetadata := {
  frontmatterParsed : option Frontmatter;
  frontmatterText : string
}.

(** ** Notebook snapshot (reporter variant) *)

Record OutputItem := { mime : string; item_data : bytes; item_type : string }.

Record CellOutput := {
  items : option (list OutputItem);
  output_metadata : string
}.

Record ReporterCell := {
  cell_metadata_id : option string;      (* c.metadata.id *)
  cell_kind : Z;
  cell_value : string;
  cell_languageId : string;
  outputs : option (list CellOutput)
}.

Record Notebook := {
  cells : list ReporterCell;
  frontmatter : option Frontmatter;
  notebook_metadata : string
}.

(** ** Live cell and terminal (legacy variant) *)

Record Timing := { startTime : Z; endTime : Z }.

Record Annotations := {
  runme_dev_id : option string;           (* annotations['runme.dev/id'] *)
  ann_id : option string;
  ann_name : string;
  ann_category : option string;
  ann_mimeType : option string
}.

Record NotebookCell := {
  document_text : string;                 (* cell.document.getText() *)
  document_languageId : string;
  executionSummary_timing : option Timing;
  cell_annotations : Annotations;         (* getAnnotations(cell) *)
  cell_runmeId : string                   (* getCellRunmeId(cell) *)
}.

(** What [hasExited()] returns: [code] is read only when [type] is 'exit'. *)
Record RunnerExitStatus := { exit_type : string; exit_code : Z }.

Record RunnerSession := { hasExited : option RunnerExitStatus }.

Record Terminal := {
  processId : option Z;
  runnerSession : option RunnerSession
}.

(** ** Context: git, operating system, editor environment *)

Record GitContext := {
  branch : option string;
  commit : option string;
  repository : option string;
  relativePath : string      (* as rendered in the template literal *)
}.

Record OsInfo := {
  os_hostname : string;
  os_arch : string;
  os_platform : string;
  os_release : string;
  userInfo_shell : option string;
  userInfo_username : string;
  cpu0_model : string;
  macAddress : string;                    (* getMAC() *)
  K_SERVICE : option string               (* process.env.K_SERVICE *)
}.

Record VsCodeEnv := {
  env_appHost : string;
  env_appName : string;
  env_appRoot : string;
  env_isNewAppInstall : bool;
  env_language : string;
  env_machineId : string;
  env_remoteName : option string;
  env_sessionId : string;
  env_shell : string;
  env_uiKind : Z;
  env_uriScheme : string
}.

(** The [vsEnv] object literal of lines 178-190. *)
Record VsEnv := {
  appHost : string;
  appName : string;
  appRoot : string;
  isNewAppInstall : bool;
  language : string;
  machineId : string;
  remoteName : string;
  sessionId : string;
  vs_shell : string;
  uiKind : Z;
  uriScheme : string
}.

(** ** Wire payloads *)

Record ReporterDevice := {
  rd_arch : string;
  rd_hostname : string;
  rd_platform : string;
  rd_macAddress : string;
  rd_release : string;
  rd_shell : option string;
  rd_vendor : string;
  rd_vsAppHost : string;
  rd_vsAppName : string;
  rd_vsAppSessionId : string;
  rd_vsMachineId : string;
  rd_vsMetadata : VsEnv
}.

Record ReporterInput := {
  r_autoSave : option bool;
  r_device : ReporterDevice;
  r_file_content : option bytes;
  r_file_path : string;
  r_git_branch : option string;
  r_git_commit : option string;
  r_git_repository : option string;
  r_session_maskedOutput : option bytes;
  r_session_plainOutput : option bytes;
  r_notebook_cells : list ReporterCell;
  r_notebook_frontmatter : option Frontmatter;
  r_notebook_metadata : string
}.

Record LegacyDevice := {
  ld_macAddress : string;
  ld_hostname : string;
  ld_platform : string;
  ld_release : string;
  ld_arch : string;
  ld_vendor : string;
  ld_shell : string;
  ld_vsAppHost : string;
  ld_vsAppName : string;
  ld_vsAppSessionId : string;
  ld_vsMachineId : string;
  ld_metadata_vsEnv : VsEnv
}.

Record LegacyMetadata := {
  lm_mimeType : option string;
  lm_name : string;
  lm_category : string;
  lm_exitType : option string;
  lm_startTime : option Z;
  lm_endTime : option Z
}.

Record CreateNotebookInput := {
  nb_fileName : string;
  nb_id : option string;
  nb_runmeVersion : option string
}.

Record LegacyInput := {
  l_stdout : bytes;
  l_stderr : bytes;
  l_exitCode : Z;
  l_pid : Z;
  l_input : string;
  l_languageId : string;
  l_autoSave : option bool;
  l_metadata : LegacyMetadata;
  l_id : option string;
  l_notebook : option CreateNotebookInput;
  l_branch : option string;
  l_repository : option string;
  l_commit : option string;
  l_fileContent : option bytes;
  l_filePath : string;
  l_sessionId : option string;
  l_plainSessionOutput : option bytes;
  l_maskedSessionOutput : option bytes;
  l_device : LegacyDevice
}.

Inductive Mutation :=
| CreateExtensionCellOutput (input : ReporterInput)
| CreateCellExecution (input : LegacyInput).

(** The result of [graphClient.mutate], opaque to the function. *)
Record FetchResult := { fetch_data : string }.

(** ** Replies posted with [postClientMessage] *)

Inductive ReplyData :=
| DisplayShare (b : bool)            (* { displayShare: b } *)
| Result (r : FetchResult)           (* the raw remote result *)
| Message (m : string).              (* the text of an error *)

Record Reply := {
  reply_data : ReplyData;
  reply_id : string;
  hasErrors : option bool              (* absent on the success replies *)
}.

(* ===================================================================== *)
(** * Suspension points, effects, world *)

(** Every [await] of the function, in source order. *)
Inductive Step :=
| AwCurrentSession      (* line 78 *)
| AwNewSession          (* line 81 *)
| AwOpenCloudPanel      (* line 85 *)
| AwAuthRace            (* line 103 *)
| AwPostReply           (* line 122 *)
| AwInitClient          (* line 137 *)
| AwGitContext          (* line 140 *)
| AwReadFile            (* line 142 *)
| AwSave                (* line 158 *)
| AwPlainCache          (* line 170 *)
| AwMaskedCache         (* line 171 *)
| AwMutateReporter      (* line 268 *)
| AwGetCellById         (* line 273 *)
| AwProcessId           (* line 283 *)
| AwMutateLegacy.       (* line 369 *)

Inductive LogLevel := LogInfo | LogWarn | LogError.

(** Effects of one invocation, in the order it performs them. *)
Inductive Event :=
| ECancel (cts : nat)                  (* cts.cancel() *)
| EInstall (cts : nat)                 (* currentCts = new CancellationTokenSource() *)
| EDispose (cts : nat)                 (* cts.dispose() *)
| EClearSlot                           (* currentCts = undefined *)
| ESuspend (s : Step)                  (* the run is suspended at an await *)
| ECommand (name : string)             (* commands.executeCommand *)
| EAddListener (callback : nat)        (* AuthSessionChangeHandler addListener *)
| ERemoveListener (callback : nat)     (* AuthSessionChangeHandler removeListener *)
| EDisposeEmitter                      (* authenticationEvent.dispose() *)
| ESaveNotebook                        (* editor.notebook.save() *)
| EMutate (m : Mutation)               (* graphClient.mutate *)
| EReply (r : Reply)                   (* postClientMessage *)
| EWarning (text : string)             (* window.showWarningMessage *)
| ETelemetry (name : string)           (* TelemetryReporter.sendTelemetryEvent *)
| ELog (level : LogLevel) (text : string).

(** A cancellation token source; its token is named by the same index. *)
Record Cts := { isCancellationRequested : bool; isDisposed : bool }.

Record World := {
  heap : list Cts;                (* every source created so far *)
  currentCts : option nat;        (* the module-level slot, line 58 *)
  listeners : list nat;           (* registry of AuthSessionChangeHandler *)
  trace : list Event
}.

(** What the pending authentication race observes before it settles
    otherwise: no auth-state change; a change that ran the callback (so
    the listener removed itself) without the emitter firing in time; or
    the emitter firing with the session then current. *)
Inductive AuthSignal :=
| NoAuthChange
| AuthChanged
| AuthFired (session : option Session).

(** What another invocation may do to the guard while this one is
    suspended. *)
Inductive Intrusion :=
| NewerBegins      (* a newer invocation runs lines 67-72 *)
| HolderEnds.      (* the invocation whose token is installed runs lines 389-394 *)

(** The collaborators' answers and the schedule of one invocation. *)
Record Env := {
  (* request *)
  msg_id : string;                        (* message.output.id *)
  msg_isUserAction : bool;                (* message.output.data.isUserAction *)
  msg_stdout : string;                    (* message.output.data.stdout *)
  (* switches *)
  reporterEnabled : bool;                 (* features.isOnInContextState(ReporterAPI) *)
  autoSaveIsOn : option bool;             (* ContextState.getKey(NOTEBOOK_AUTOSAVE_ON) *)
  forceLogin : bool;                      (* kernel.isFeatureOn(ForceLogin) *)
  (* authentication *)
  currentSession : option Session;
  newSession : option Session;
  authSignal : AuthSignal;
  (* schedule: what other invocations do, in order, while this one is
     suspended at a step; the awaited promise rejects with an Error *)
  intrusions : Step -> list Intrusion;
  fails : Step -> option string;
  (* editor and kernel *)
  fsPath : string;                        (* editor.notebook.uri.fsPath *)
  gitCtx : GitContext;                    (* getGitContext(path) *)
  fileBytes : bytes;                      (* workspace.fs.readFile *)
  notebookMetadata : NotebookMetadata;    (* editor.notebook.metadata *)
  marshalFrontmatter : NotebookMetadata -> Frontmatter;
                                          (* ConnectSerializer.marshalFrontmatter *)
  parseYaml : string -> option (option Frontmatter);
                                          (* YAML.parseAllDocuments(..)[0].toJS?.(),
                                             or none when that throws *)
  getDocumentCacheId : NotebookMetadata -> string;
  getPlainCache : string -> option bytes;          (* kernel.getPlainCache *)
  getMaskedCache : string -> option bytes;         (* kernel.getMaskedCache *)
  getNotebookDataCache : string -> option Notebook;
                                          (* kernel.getNotebookDataCache, then
                                             ConnectSerializer.marshalNotebook *)
  getCellById : string -> option NotebookCell;
  getTerminal : string -> option Terminal;  (* kernel.getTerminal(runmeId) *)
  runnerEnvSessionId : option string;     (* kernel.getRunnerEnvironment()?.getSessionId() *)
  os : OsInfo;
  vscodeEnv : VsCodeEnv;
  mutateResult : FetchResult              (* what graphClient.mutate resolves to *)
}.

(** Lines 162-167: the metadata with the marshalled frontmatter merged in. *)
Definition mergedMetadata (env : Env) : NotebookMetadata :=
  {| frontmatterParsed := Some (marshalFrontmatter env (notebookMetadata env));
     frontmatterText := frontmatterText (notebookMetadata env) |}.

(** Line 169. *)
Definition cacheId (env : Env) : string := getDocumentCacheId env (mergedMetadata env).

(** Lines 170, 171, 195 and 201: the caches of the kernel at that id. *)
Definition plainCache (env : Env) : option bytes := getPlainCache env (cacheId env).
Definition maskedCache (env : Env) : option bytes := getMaskedCache env (cacheId env).
Definition notebookDataCache (env : Env) : option Notebook :=
  getNotebookDataCache env (cacheId env).

(** Lines 296 and 300. *)
Definition metadataFrontmatterParsed (env : Env) : option Frontmatter :=
  frontmatterParsed (notebookMetadata env).
Definition yamlFrontmatter (env : Env) : option (option Frontmatter) :=
  parseYaml env (frontmatterText (notebookMetadata env)).

Definition isBegin (i : Intrusion) : bool :=
  match i with NewerBegins => true | HolderEnds => false end.

(** A newer invocation starts while the run is suspended at [s]. *)
Definition interrupts (env : Env) (s : Step) : bool :=
  existsb isBegin (intrusions env s).

(* ===================================================================== *)
(** * The monad of an asynchronous invocation *)

Inductive Completion (A : Type) :=
| Normal (a : A)
| Return                      (* a [return] statement was executed *)
| Throw (e : Js.Thrown).

Arguments Normal {A} a.
Arguments Return {A}.
Arguments Throw {A} e.

Definition M (A : Type) := World -> Completion A * World.

Definition ret {A} (a : A) : M A := fun w => (Normal a, w).

Definition bind {A B} (m : M A) (f : A -> M B) : M B :=
  fun w =>
    match m w with
    | (Normal a, w') => f a w'
    | (Return, w') => (Return, w')
    | (Throw e, w') => (Throw e, w')
    end.

Definition return_ {A} : M A := fun w => (Return, w).

Definition throw {A} (e : Js.Thrown) : M A := fun w => (Throw e, w).

Declare Scope async_scope.
Delimit Scope async_scope with async.
Notation "x <- m ;; k" := (bind m (fun x => k))
  (at level 100, m at next level, right associativity) : async_scope.
Notation "m ;; k" := (bind m (fun _ => k))
  (at level 100, right associativity) : async_scope.
Local Open Scope async_scope.

(** [try { body } catch (e) { handler e }] *)
Definition try_catch {A} (body : M A) (handler : Js.Thrown -> M A) : M A :=
  fun w =>
    match body w with
    | (Throw e, w') => handler e w'
    | r => r
    end.

(** [try { body } finally { fin }]: the finaliser sees the value the body
    produced, if any; an abrupt completion of the finaliser replaces the
    completion of the body. *)
Definition try_finally {A} (body : M A) (fin : option A -> M unit) : M A :=
  fun w =>
    match body w with
    | (c, w') =>
        match fin (match c with Normal a => Some a | _ => None end) w' with
        | (Normal _, w'') => (c, w'')
        | (Return, w'') => (Return, w'')
        | (Throw e, w'') => (Throw e, w'')
        end
    end.

(** ** Primitive effects *)

Definition emit (e : Event) : M unit :=
  fun w => (Normal tt,
            {| heap := heap w; currentCts := currentCts w;
               listeners := listeners w; trace := trace w ++ [e] |}).

Definition readSlot : M (option nat) := fun w => (Normal (currentCts w), w).

Definition writeSlot (s : option nat) : M unit :=
  fun w => (Normal tt,
            {| heap := heap w; currentCts := s;
               listeners := listeners w; trace := trace w |}).

Fixpoint updateAt {A} (f : A -> A) (i : nat) (l : list A) : list A :=
  match l, i with
  | [], _ => []
  | x :: r, 0 => f x :: r
  | x :: r, S j => x :: updateAt f j r
  end.

Definition setHeap (h : list Cts) (w : World) : World :=
  {| heap := h; currentCts := currentCts w;
     listeners := listeners w; trace := trace w |}.

Definition markCancelled (c : Cts) : Cts :=
  {| isCancellationRequested := true; isDisposed := isDisposed c |}.

Definition markDisposed (c : Cts) : Cts :=
  {| isCancellationRequested := isCancellationRequested c; isDisposed := true |}.

(** [cts.cancel()] *)
Definition cancel (c : nat) : M unit :=
  fun w => emit (ECancel c) (setHeap (updateAt markCancelled c (heap w)) w).

(** [cts.dispose()] *)
Definition dispose (c : nat) : M unit :=
  fun w => emit (EDispose c) (setHeap (updateAt markDisposed c (heap w)) w).

(** [new CancellationTokenSource()] *)
Definition newCts : M nat :=
  fun w => (Normal (length (heap w)),
            setHeap (heap w ++ [{| isCancellationRequested := false;
                                   isDisposed := false |}]) w).

(** [token.isCancellationRequested] *)
Definition cancelledIn (h : list Cts) (token : nat) : bool :=
  match nth_error h token with
  | Some c => isCancellationRequested c
  | None => false
  end.

Definition disposedIn (h : list Cts) (c : nat) : bool :=
  match nth_error h c with
  | Some x => isDisposed x
  | None => false
  end.

Definition tokenCancelled (token : nat) : M bool :=
  fun w => (Normal (cancelledIn (heap w) token), w).

(** AuthSessionChangeHandler: [addListener] pushes, [removeListener]
    filters the callback out. *)
Definition addListener (cb : nat) : M unit :=
  fun w => emit (EAddListener cb)
             {| heap := heap w; currentCts := currentCts w;
                listeners := listeners w ++ [cb]; trace := trace w |}.

Definition removeListener (cb : nat) : M unit :=
  fun w => emit (ERemoveListener cb)
             {| heap := heap w; currentCts := currentCts w;
                listeners := filter (fun l => negb (Nat.eqb l cb)) (listeners w);
                trace := trace w |}.

(* ===================================================================== *)
(** * Single-flight guard (lines 67-72 and 389-394) *)

(** Lines 67-72: cancel the source in the slot, install a fresh one,
    take its token. *)
Definition beginRun : M nat :=
  cur <- readSlot ;;
  (match cur with
   | Some c => cancel c
   | None => ret tt
   end) ;;
  fresh <- newCts ;;
  writeSlot (Some fresh) ;;
  emit (EInstall fresh) ;;
  ret fresh.

(** Lines 389-394: [if (currentCts?.token === token) { dispose; clear }] *)
Definition endRun (token : nat) : M unit :=
  cur <- readSlot ;;
  match cur with
  | Some c =>
      if Nat.eqb c token then
        dispose c ;;
        writeSlot None ;;
        emit EClearSlot
      else ret tt
  | None => ret tt
  end.

(** The guard swap of a newer invocation, seen from this one: it changes
    the store and the slot; its effects belong to the other run's trace. *)
Definition supersede (w : World) : World :=
  let w' := snd (beginRun w) in
  {| heap := heap w'; currentCts := currentCts w';
     listeners := listeners w; trace := trace w |}.

(** The end of the invocation whose token is installed, seen from this
    one: lines 389-394 run by the holder of the slot. *)
Definition retire (w : World) : World :=
  match currentCts w with
  | Some t =>
      let w' := snd (endRun t w) in
      {| heap := heap w'; currentCts := currentCts w';
         listeners := listeners w; trace := trace w |}
  | None => w
  end.

(** One step of another invocation while the run that owns [token] is
    suspended; the run itself does not end while it is suspended. *)
Definition intrude (token : nat) (i : Intrusion) (w : World) : World :=
  match i with
  | NewerBegins => supersede w
  | HolderEnds =>
      match currentCts w with
      | Some t => if Nat.eqb t token then w else retire w
      | None => w
      end
  end.

Definition intrudeAll (token : nat) (l : list Intrusion) (w : World) : World :=
  fold_left (fun w i => intrude token i w) l w.

(* ===================================================================== *)
(** * The pipeline *)

Section Pipeline.

(** [OutputType.stdout]: the member is read at line 254 but the
    enumeration in [src/constants.ts] does not declare it; its value is
    a parameter of the development. *)
Variable OutputType_stdout : string.

Variable env : Env.

(** ** Suspension *)

Definition interrupted (token : nat) (s : Step) (w : World) : World :=
  intrudeAll token (intrusions env s) w.

(** The run that owns [token] is suspended at [s]; other invocations may
    act on the guard meanwhile. *)
Definition suspend (token : nat) (s : Step) : M unit :=
  fun w =>
    (Normal tt,
     {| heap := heap (interrupted token s w);
        currentCts := currentCts (interrupted token s w);
        listeners := listeners w;
        trace := trace w ++ [ESuspend s] |}).

(** [await p] where [p] resolves to [v] or rejects with an Error. *)
Definition await {A} (token : nat) (s : Step) (v : A) : M A :=
  suspend token s ;;
  match fails env s with
  | Some msg => throw (Js.Error msg)
  | None => ret v
  end.

(** [postClientMessage(messaging, ClientMessages.platformApiResponse, r)] *)
Definition postClientMessage (r : Reply) : M unit := emit (EReply r).

Definition displayShareFalse : Reply :=
  {| reply_data := DisplayShare false; reply_id := msg_id env; hasErrors := None |}.

(** ** Authentication gate (lines 84-135) *)

(** Lines 103-112: the race between the authentication event, the
    timer and the cancellation of the token. *)
Definition authRace (token : nat) : M (option Session) :=
  suspend token AwAuthRace ;;
  (match authSignal env with
   | NoAuthChange => ret tt
   | _ => removeListener token              (* the callback ran, line 90 *)
   end) ;;
  cancelled <- tokenCancelled token ;;
  if cancelled then throw (Js.Error "Operation cancelled")   (* line 109 *)
  else
    match authSignal env with
    | AuthFired session => ret session      (* line 92 *)
    | _ => throw Js.Undefined               (* line 106 *)
    end.

(** Lines 113-134: the [finally] block; [session] is the variable as the
    block finds it. *)
Definition afterRace (token : nat) (session : option Session) : M unit :=
  emit EDisposeEmitter ;;
  cancelled <- tokenCancelled token ;;
  if cancelled then
    emit (ELog LogInfo "Cancelling authentication event") ;;
    return_
  else if negb (Js.isSome session) then
    postClientMessage displayShareFalse ;;
    suspend token AwPostReply ;;
    emit (EWarning "Saving timed out. Sign in to save your cells. Please try again.") ;;
    return_
  else ret tt.

Definition interactiveLogin (token : nat) (session : option Session)
  : M (option Session) :=
  emit (ECommand "runme.openCloudPanel") ;;
  await token AwOpenCloudPanel tt ;;
  addListener token ;;
  cancelled <- tokenCancelled token ;;
  if cancelled then return_
  else
    try_finally (authRace token)
      (fun settled =>
         afterRace token (match settled with Some s => s | None => session end)).

Definition resolveSession (token : nat) : M (option Session) :=
  session <- await token AwCurrentSession (currentSession env) ;;
  session <- (if negb (Js.isSome session) && forceLogin env
              then await token AwNewSession (newSession env)
              else ret session) ;;
  if negb (Js.isSome session) && msg_isUserAction env
  then interactiveLogin token session
  else ret session.

(** ** Context (lines 139-142 and 173-190) *)

Definition filePathOf (g : GitContext) (path : string) : string :=
  if Js.truthyOpt (repository g)
  then relativePath g ++ Js.lastSegment "" path
  else path.

(** Lines 173-176. *)
Definition resolveHostname (o : OsInfo) : string :=
  let hostname := os_hostname o in
  if Js.includes ["localhost"; "127.0.0.1"] hostname && Js.truthyOpt (K_SERVICE o)
  then match K_SERVICE o with Some v => v | None => hostname end
  else hostname.

Definition vsEnvOf (e : VsCodeEnv) : VsEnv :=
  {| appHost := env_appHost e;
     appName := env_appName e;
     appRoot := env_appRoot e;
     isNewAppInstall := env_isNewAppInstall e;
     language := env_language e;
     machineId := env_machineId e;
     remoteName := Js.orElse (env_remoteName e) "";
     sessionId := env_sessionId e;
     vs_shell := env_shell e;
     uiKind := env_uiKind e;
     uriScheme := env_uriScheme e |}.

(** What the collector hands to the payload builders. *)
Record Collected := {
  c_filePath : string;
  c_fileContent : option bytes;
  c_git : GitContext;
  c_plain : option bytes;
  c_masked : option bytes;
  c_hostname : string;
  c_vsEnv : VsEnv
}.

(** ** Reporter variant (lines 195-269) *)

(** Lines 253-257. *)
Definition keepStdout (l : list OutputItem) : list OutputItem :=
  filter (fun item => String.eqb (mime item) OutputType_stdout) l.

(** Lines 251-258. *)
Definition redactOutput (output : CellOutput) : CellOutput :=
  {| items := Some (keepStdout (match items output with Some l => l | None => [] end));
     output_metadata := output_metadata output |}.

Definition redactCell (cell : ReporterCell) : ReporterCell :=
  {| cell_metadata_id := cell_metadata_id cell;
     cell_kind := cell_kind cell;
     cell_value := cell_value cell;
     cell_languageId := cell_languageId cell;
     outputs := Some (map redactOutput
                        (match outputs cell with Some l => l | None => [] end)) |}.

(** Line 206. *)
Definition findCell (n : Notebook) : option ReporterCell :=
  find (fun c => match cell_metadata_id c with
                 | Some i => String.eqb i (msg_id env)
                 | None => false
                 end) (cells n).

Definition reporterInput (c : Collected) (notebook : Notebook) (cell : ReporterCell)
  : ReporterInput :=
  {| r_autoSave := autoSaveIsOn env;
     r_device :=
       {| rd_arch := os_arch (os env);
          rd_hostname := c_hostname c;
          rd_platform := os_platform (os env);
          rd_macAddress := macAddress (os env);
          rd_release := os_release (os env);
          rd_shell := userInfo_shell (os env);
          rd_vendor := userInfo_username (os env);
          rd_vsAppHost := appHost (c_vsEnv c);
          rd_vsAppName := appName (c_vsEnv c);
          rd_vsAppSessionId := sessionId (c_vsEnv c);
          rd_vsMachineId := machineId (c_vsEnv c);
          rd_vsMetadata := c_vsEnv c |};
     r_file_content := c_fileContent c;
     r_file_path := c_filePath c;
     r_git_branch := branch (c_git c);
     r_git_commit := commit (c_git c);
     r_git_repository := repository (c_git c);
     r_session_maskedOutput := c_masked c;
     r_session_plainOutput := c_plain c;
     r_notebook_cells := [redactCell cell];
     r_notebook_frontmatter := frontmatter notebook;
     r_notebook_metadata := notebook_metadata notebook |}.

Definition saveWithReporter (token : nat) (c : Collected) : M FetchResult :=
  match notebookDataCache env with
  | None =>
      throw (Js.Error ("Notebook data cache not found for cache ID: " ++ cacheId env))
  | Some notebook =>
      match findCell notebook with
      | None =>
          throw (Js.Error ("Cell not found in notebook "
                           ++ Js.template (fmRunmeId (frontmatter notebook))))
      | Some cell =>
          emit (EMutate (CreateExtensionCellOutput (reporterInput c notebook cell))) ;;
          await token AwMutateReporter (mutateResult env)
      end
  end.

(** ** Legacy variant (lines 273-371) *)

(** Lines 285-290. *)
Definition exitCodeOf (runnerExitStatus : option RunnerExitStatus) : Z :=
  match runnerExitStatus with
  | Some st =>
      if String.eqb (exit_type st) "exit" then exit_code st
      else if String.eqb (exit_type st) "error" then 1%Z
      else 0%Z
  | None => 0%Z
  end.

(** Line 283: [(await terminal.processId) || 0]. *)
Definition pidOf (p : option Z) : Z :=
  match p with
  | Some n => if Z.eqb n 0 then 0%Z else n
  | None => 0%Z
  end.

(** Line 292: [delete annotations['runme.dev/id']]. *)
Definition deleteRunmeDevId (a : Annotations) : Annotations :=
  {| runme_dev_id := None;
     ann_id := ann_id a;
     ann_name := ann_name a;
     ann_category := ann_category a;
     ann_mimeType := ann_mimeType a |}.

Definition emptyFrontmatter : Frontmatter := {| fm_runme := None |}.

(** Lines 296-305. *)
Definition parsedFrontmatter : M (option Frontmatter) :=
  match metadataFrontmatterParsed env with
  | Some fm => ret (Some fm)
  | None =>
      match yamlFrontmatter env with
      | Some js => ret (Some (match js with Some fm => fm | None => emptyFrontmatter end))
      | None => emit (ELog LogWarn "failed to parse frontmatter, reason: ") ;; ret None
      end
  end.

(** Lines 307-315. *)
Definition notebookInputOf (fmParsed : option Frontmatter) : option CreateNotebookInput :=
  if Js.truthyOpt (fmRunmeId fmParsed) || Js.truthyOpt (fmRunmeVersion fmParsed)
  then Some {| nb_fileName := fsPath env;
               nb_id := fmRunmeId fmParsed;
               nb_runmeVersion := fmRunmeVersion fmParsed |}
  else None.

Definition legacyInput (c : Collected) (cell : NotebookCell) (terminal : Terminal)
    (pid : Z) (fmParsed : option Frontmatter) : LegacyInput :=
  let runnerExitStatus :=
    match runnerSession terminal with
    | Some rs => hasExited rs
    | None => None
    end in
  let annotations := deleteRunmeDevId (cell_annotations cell) in
  {| l_stdout := list_byte_of_string (msg_stdout env);
     l_stderr := [];
     l_exitCode := exitCodeOf runnerExitStatus;
     l_pid := pid;
     l_input := Js.encodeURIComponent (document_text cell);
     l_languageId := document_languageId cell;
     l_autoSave := autoSaveIsOn env;
     l_metadata :=
       {| lm_mimeType := ann_mimeType annotations;
          lm_name := ann_name annotations;
          lm_category := Js.orElse (ann_category annotations) "";
          lm_exitType := option_map exit_type runnerExitStatus;
          lm_startTime := option_map startTime (executionSummary_timing cell);
          lm_endTime := option_map endTime (executionSummary_timing cell) |};
     l_id := ann_id annotations;
     l_notebook := notebookInputOf fmParsed;
     l_branch := branch (c_git c);
     l_repository := repository (c_git c);
     l_commit := commit (c_git c);
     l_fileContent := c_fileContent c;
     l_filePath := c_filePath c;
     l_sessionId := runnerEnvSessionId env;
     l_plainSessionOutput := c_plain c;
     l_maskedSessionOutput := c_masked c;
     l_device :=
       {| ld_macAddress := macAddress (os env);
          ld_hostname := c_hostname c;
          ld_platform := os_platform (os env);
          ld_release := os_release (os env);
          ld_arch := os_arch (os env);
          ld_vendor := cpu0_model (os env);
          ld_shell := vs_shell (c_vsEnv c);
          ld_vsAppHost := appHost (c_vsEnv c);
          ld_vsAppName := appName (c_vsEnv c);
          ld_vsAppSessionId := sessionId (c_vsEnv c);
          ld_vsMachineId := machineId (c_vsEnv c);
          ld_metadata_vsEnv := c_vsEnv c |} |}.

Definition saveLegacy (token : nat) (c : Collected) : M FetchResult :=
  found <- await token AwGetCellById (getCellById env (msg_id env)) ;;
  match found with
  | None => throw (Js.Error "Cell not found")
  | Some cell =>
      match getTerminal env (cell_runmeId cell) with
      | None => throw (Js.Error "Could not find an associated terminal")
      | Some terminal =>
          reported <- await token AwProcessId (processId terminal) ;;
          let pid := pidOf reported in
          fmParsed <- parsedFrontmatter ;;
          emit (EMutate (CreateCellExecution (legacyInput c cell terminal pid fmParsed))) ;;
          await token AwMutateLegacy (mutateResult env)
      end
  end.

(** ** The body of the outer [try] (lines 75-380) *)

Definition pipeline (isReporterEnabled : bool) (token : nat) : M unit :=
  session <- resolveSession token ;;
  await token AwInitClient tt ;;
  let path := fsPath env in
  g <- await token AwGitContext (gitCtx env) ;;
  let filePath := filePathOf g path in
  fileContent <- (if Js.truthy path
                  then content <- await token AwReadFile (fileBytes env) ;;
                       ret (Some content)
                  else ret None) ;;
  match session with
  | None =>
      postClientMessage displayShareFalse ;;
      return_
  | Some _ =>
      emit ESaveNotebook ;;
      await token AwSave tt ;;
      emit (ELog LogInfo "Saving cell execution") ;;
      plainSessionOutput <- await token AwPlainCache (plainCache env) ;;
      maskedSessionOutput <- await token AwMaskedCache (maskedCache env) ;;
      let c := {| c_filePath := filePath;
                  c_fileContent := fileContent;
                  c_git := g;
                  c_plain := plainSessionOutput;
                  c_masked := maskedSessionOutput;
                  c_hostname := resolveHostname (os env);
                  c_vsEnv := vsEnvOf (vscodeEnv env) |} in
      data <- (if isReporterEnabled then saveWithReporter token c
                 else saveLegacy token c) ;;
      emit (ELog LogInfo "Cell execution saved") ;;
      emit (ETelemetry "app.save") ;;
      postClientMessage {| reply_data := Result data;
                           reply_id := msg_id env;
                           hasErrors := None |} ;;
      return_
  end.

(** The [catch] block (lines 381-388); reading [.message] of
    [undefined] raises a TypeError. *)
Definition errorBoundary (thrown : Js.Thrown) : M unit :=
  match thrown with
  | Js.Undefined =>
      throw (Js.Error "Cannot read properties of undefined (reading 'message')")
  | Js.Error message =>
      emit (ELog LogError "Error saving cell execution") ;;
      emit (ETelemetry "app.error") ;;
      postClientMessage {| reply_data := Message message;
                           reply_id := msg_id env;
                           hasErrors := Some true |} ;;
      return_
  end.

(** The function. *)
Definition saveCellExecution : M unit :=
  let isReporterEnabled := reporterEnabled env in
  token <- beginRun ;;
  try_finally
    (try_catch (pipeline isReporterEnabled token) errorBoundary)
    (fun _ => endRun token).

End Pipeline.

(** ** Observations on a trace *)

Definition replies (t : list Event) : list Reply :=
  flat_map (fun e => match e with EReply r => [r] | _ => [] end) t.

Definition mutations (t : list Event) : list Mutation :=
  flat_map (fun e => match e with EMutate m => [m] | _ => [] end) t.

Definition warnings (t : list Event) : list string :=
  flat_map (fun e => match e with EWarning s => [s] | _ => [] end) t.

Definition added (t : list Event) : list nat :=
  flat_map (fun e => match e with EAddListener c => [c] | _ => [] end) t.

Definition removed (t : list Event) : list nat :=
  flat_map (fun e => match e with ERemoveListener c => [c] | _ => [] end) t.

Definition suspensions (t : list Event) : list Step :=
  flat_map (fun e => match e with ESuspend s => [s] | _ => [] end) t.

(** The world before any invocation. *)
Definition idle : World :=
  {| heap := []; currentCts := None; listeners := []; trace := [] |}.

(** One invocation started in world [w]: the world it leaves; the trace
    holds the effects of this invocation only. *)
Definition start (w : World) : World :=
  {| heap := heap w; currentCts := currentCts w;
     listeners := listeners w; trace := [] |}.

Definition run (stdout : string) (env : Env) (w : World) : World :=
  snd (saveCellExecution stdout env (start w)).

(* ===================================================================== *)
(** * The vocabulary of the claims *)

(** [cell?.outputs || []] and [output?.items || []] *)
Definition outputsOf (c : ReporterCell) : list CellOutput :=
  match outputs c with Some l => l | None => [] end.

Definition itemsOf (o : CellOutput) : list OutputItem :=
  match items o with Some l => l | None => [] end.

(** The redaction rule in the specification's words: the items sent are
    exactly those of the source whose mime type is the stdout kind. *)
Definition StdoutSubset (stdout : string) (source sent : list OutputItem) : Prop :=
  forall item, In item sent <-> In item source /\ mime item = stdout.

(** The exit code in the specification's words. *)
Inductive ExitCode : option RunnerExitStatus -> Z -> Prop :=
| exit_code_reported st : exit_type st = "exit" -> ExitCode (Some st) (exit_code st)
| exit_code_error st : exit_type st = "error" -> ExitCode (Some st) 1
| exit_code_other st :
    exit_type st <> "exit" -> exit_type st <> "error" -> ExitCode (Some st) 0
| exit_code_unknown : ExitCode None 0.

(** [terminal.runnerSession?.hasExited()] *)
Definition exitStatusOf (t : Terminal) : option RunnerExitStatus :=
  match runnerSession t with
  | Some rs => hasExited rs
  | None => None
  end.

(** The hostname a mutation carries in its device record. *)
Definition hostnameOf (m : Mutation) : string :=
  match m with
  | CreateExtensionCellOutput input => rd_hostname (r_device input)
  | CreateCellExecution input => ld_hostname (l_device input)
  end.

Definition isLoopback (hostname : string) : Prop :=
  hostname = "localhost" \/ hostname = "127.0.0.1".

(** The hostname override as the specification words it: on a loopback
    alias, a set variable replaces the hostname; elsewhere the OS hostname
    is kept. *)
Definition hostnameAsStated (o : OsInfo) (h : string) : Prop :=
  (forall v, isLoopback (os_hostname o) -> K_SERVICE o = Some v -> h = v)
  /\ (~ isLoopback (os_hostname o) -> h = os_hostname o).

(** The hostname override as the code has it: the variable must also be
    non-empty. *)
Definition hostnameAsCoded (o : OsInfo) (h : string) : Prop :=
  (forall v, isLoopback (os_hostname o) -> K_SERVICE o = Some v -> v <> "" -> h = v)
  /\ (isLoopback (os_hostname o) ->
      K_SERVICE o = None \/ K_SERVICE o = Some "" -> h = os_hostname o)
  /\ (~ isLoopback (os_hostname o) -> h = os_hostname o).

Section Vocabulary.

Variable stdout : string.
Variable env : Env.

(** ** Conditions on an invocation *)

(** The run has no session after lines 78-82. *)
Definition noSession : Prop :=
  fails env AwCurrentSession = None /\ currentSession env = None
  /\ (forceLogin env = true ->
      fails env AwNewSession = None /\ newSession env = None).

(** The run goes into the interactive login and registers its callback. *)
Definition interactive : Prop :=
  noSession /\ msg_isUserAction env = true /\ fails env AwOpenCloudPanel = None.

(** No newer invocation starts before the race settles. *)
Definition undisturbed : Prop :=
  interrupts env AwCurrentSession = false
  /\ (forceLogin env = true -> interrupts env AwNewSession = false)
  /\ interrupts env AwOpenCloudPanel = false
  /\ interrupts env AwAuthRace = false.

(** A newer invocation starts while the run is in the gate. *)
Definition supersededInGate : Prop :=
  interrupts env AwCurrentSession = true
  \/ (forceLogin env = true /\ interrupts env AwNewSession = true)
  \/ interrupts env AwOpenCloudPanel = true
  \/ interrupts env AwAuthRace = true.

(** The collaborators awaited between the gate and the session test. *)
Definition contextOk : Prop :=
  fails env AwInitClient = None /\ fails env AwGitContext = None
  /\ (Js.truthy (fsPath env) = true -> fails env AwReadFile = None).

(** The run holds a session when it leaves the gate: the current one,
    one created by force login, or one delivered by the authentication
    event of an undisturbed race. *)
Inductive SignedIn : Prop :=
| signed_current s :
    fails env AwCurrentSession = None -> currentSession env = Some s -> SignedIn
| signed_forced s :
    fails env AwCurrentSession = None -> currentSession env = None ->
    forceLogin env = true ->
    fails env AwNewSession = None -> newSession env = Some s -> SignedIn
| signed_interactive s :
    interactive -> undisturbed -> authSignal env = AuthFired (Some s) -> SignedIn.

(** Every awaited collaborator up to the choice of the variant resolves. *)
Definition collectorOk : Prop :=
  contextOk /\ fails env AwSave = None
  /\ fails env AwPlainCache = None /\ fails env AwMaskedCache = None.

(** The lookups of lines 195-210 and 273-282, and the text of the Error
    each one throws when it finds nothing. *)
Inductive NotFound : string -> Prop :=
| snapshot_not_found :
    reporterEnabled env = true -> notebookDataCache env = None ->
    NotFound ("Notebook data cache not found for cache ID: " ++ cacheId env)
| snapshot_cell_not_found notebook :
    reporterEnabled env = true -> notebookDataCache env = Some notebook ->
    findCell env notebook = None ->
    NotFound ("Cell not found in notebook "
              ++ Js.template (fmRunmeId (frontmatter notebook)))
| cell_not_found :
    reporterEnabled env = false -> fails env AwGetCellById = None ->
    getCellById env (msg_id env) = None ->
    NotFound "Cell not found"
| terminal_not_found cell :
    reporterEnabled env = false -> fails env AwGetCellById = None ->
    getCellById env (msg_id env) = Some cell ->
    getTerminal env (cell_runmeId cell) = None ->
    NotFound "Could not find an associated terminal".

Definition failureReply (message : string) : Reply :=
  {| reply_data := Message message; reply_id := msg_id env; hasErrors := Some true |}.

(** The text of the warning of lines 129-131. *)
Definition timeoutWarning : string :=
  "Saving timed out. Sign in to save your cells. Please try again.".

(** ** The claims that fail, as the specification words them *)

(** C3 as the specification words it: the premise is that no session
    exists yet and that the save was not triggered by the user. *)
Definition shortCircuitAsStated (w : World) : Prop :=
  fails env AwCurrentSession = None -> currentSession env = None ->
  msg_isUserAction env = false ->
  let t := trace (run stdout env w) in
  replies t = [displayShareFalse env] /\ mutations t = [] /\ warnings t = [].

(** The token is cancelled at a suspension before any reply is posted. *)
Definition cancelledBeforeReply (t : list Event) : Prop :=
  exists before s after,
    t = before ++ ESuspend s :: after
    /\ interrupts env s = true /\ replies before = [].

(** C1 as the specification words it. *)
Definition silentCancelAsStated (w : World) : Prop :=
  cancelledBeforeReply (trace (run stdout env w)) ->
  replies (trace (run stdout env w)) = [].

(** C9 as the specification words it, for one invocation. *)
Definition hostnameClaimAsStated (w : World) : Prop :=
  Forall (fun m => hostnameAsStated (os env) (hostnameOf m))
         (mutations (trace (run stdout env w))).

(** C7 as the specification words it: the source found in the slot is
    cancelled and disposed, and nothing happens between its cancellation
    and the installation of the new one. *)
Definition guardSwapAsStated (w : World) (previous : nat) : Prop :=
  currentCts w = Some previous -> previous < length (heap w) ->
  let w' := run stdout env w in
  (exists rest, trace w' = ECancel previous :: EInstall (length (heap w)) :: rest)
  /\ cancelledIn (heap w') previous = true
  /\ disposedIn (heap w') previous = true.

End Vocabulary.

(* ===================================================================== *)
(** * Concrete inputs *)

Module Sample.

Definition stdoutMime : string := "application/vnd.code.notebook.stdout".

Definition alice : Session := {| accessToken := "alice" |}.

Definition host (hostname : string) (service : option string) : OsInfo :=
  {| os_hostname := hostname; os_arch := "x64"; os_platform := "linux";
     os_release := "6.1"; userInfo_shell := Some "/bin/sh";
     userInfo_username := "dev"; cpu0_model := "cpu";
     macAddress := "00:00:00:00:00:01"; K_SERVICE := service |}.

Definition editorEnv : VsCodeEnv :=
  {| env_appHost := "desktop"; env_appName := "code"; env_appRoot := "/app";
     env_isNewAppInstall := false; env_language := "en"; env_machineId := "m";
     env_remoteName := None; env_sessionId := "s"; env_shell := "/bin/sh";
     env_uiKind := 1; env_uriScheme := "vscode" |}.

Definition item (m : string) : OutputItem :=
  {| mime := m; item_data := []; item_type := "Buffer" |}.

(** A snapshot with one cell, "c1", holding items of three mime types. *)
Definition snapshot : Notebook :=
  {| cells :=
       [ {| cell_metadata_id := Some "c0"; cell_kind := 2; cell_value := "ls";
            cell_languageId := "sh"; outputs := None |};
         {| cell_metadata_id := Some "c1"; cell_kind := 2; cell_value := "echo hi";
            cell_languageId := "sh";
            outputs := Some [ {| items := Some [ item stdoutMime;
                                                 item "stateful.runme/terminal";
                                                 item stdoutMime;
                                                 item "text/plain" ];
                                 output_metadata := "" |};
                              {| items := None; output_metadata := "" |} ] |} ];
     frontmatter := Some {| fm_runme := Some {| fm_id := Some "nb1";
                                                fm_version := Some "v3" |} |};
     notebook_metadata := "" |}.

Definition liveCell : NotebookCell :=
  {| document_text := "echo hi"; document_languageId := "sh";
     executionSummary_timing := Some {| startTime := 10; endTime := 12 |};
     cell_annotations := {| runme_dev_id := None; ann_id := Some "c1";
                            ann_name := "echo"; ann_category := None;
                            ann_mimeType := Some "text/plain" |};
     cell_runmeId := "c1" |}.

Definition terminalOf (pid : option Z) (st : option RunnerExitStatus) : Terminal :=
  {| processId := pid; runnerSession := Some {| hasExited := st |} |}.

Definition never : Step -> list Intrusion := fun _ => [].
Definition succeed : Step -> option string := fun _ => None.

Definition sameStep (s s' : Step) : bool :=
  match s, s' with
  | AwCurrentSession, AwCurrentSession | AwNewSession, AwNewSession
  | AwOpenCloudPanel, AwOpenCloudPanel | AwAuthRace, AwAuthRace
  | AwPostReply, AwPostReply | AwInitClient, AwInitClient
  | AwGitContext, AwGitContext | AwReadFile, AwReadFile
  | AwSave, AwSave | AwPlainCache, AwPlainCache
  | AwMaskedCache, AwMaskedCache | AwMutateReporter, AwMutateReporter
  | AwGetCellById, AwGetCellById | AwProcessId, AwProcessId
  | AwMutateLegacy, AwMutateLegacy => true
  | _, _ => false
  end.

(** A newer invocation starts while the run is suspended at [s]. *)
Definition during (s : Step) : Step -> list Intrusion :=
  fun s' => if sameStep s s' then [NewerBegins] else [].

(** A newer invocation starts and ends while the run is suspended at [s]. *)
Definition startsAndEnds (s : Step) : Step -> list Intrusion :=
  fun s' => if sameStep s s' then [NewerBegins; HolderEnds] else [].

(** An invocation for cell "c1" of /work/notes.md. *)
Definition make (userAction reporter force : bool) (current fresh : option Session)
    (signal : AuthSignal) (others : Step -> list Intrusion)
    (rejects : Step -> option string)
    (machine : OsInfo) (cache : option Notebook)
    (live : option NotebookCell) (term : option Terminal) : Env :=
  {| msg_id := "c1"; msg_isUserAction := userAction; msg_stdout := "hi";
     reporterEnabled := reporter; autoSaveIsOn := Some true; forceLogin := force;
     currentSession := current; newSession := fresh; authSignal := signal;
     intrusions := others; fails := rejects;
     fsPath := "/work/notes.md";
     gitCtx := {| branch := Some "main"; commit := Some "abc";
                  repository := Some "git@host:repo.git"; relativePath := "docs/" |};
     fileBytes := [];
     notebookMetadata := {| frontmatterParsed := None; frontmatterText := "" |};
     marshalFrontmatter := fun _ => emptyFrontmatter;
     parseYaml := fun _ => Some None;
     getDocumentCacheId := fun _ => "cache-1";
     getPlainCache := fun _ => None; getMaskedCache := fun _ => None;
     getNotebookDataCache := fun _ => cache;
     getCellById := fun _ => live;
     getTerminal := fun _ => term;
     runnerEnvSessionId := Some "rs";
     os := machine;
     vscodeEnv := editorEnv;
     mutateResult := {| fetch_data := "ok" |} |}.

(** A world in which an earlier invocation is still in flight. *)
Definition busy : World :=
  {| heap := [ {| isCancellationRequested := false; isDisposed := false |} ];
     currentCts := Some 0; listeners := []; trace := [] |}.

End Sample.

(* ===================================================================== *)
(** * Scenarios *)

Module Scenario.
Import Sample.

Definition exited (code : Z) : option RunnerExitStatus :=
  Some {| exit_type := "exit"; exit_code := code |}.

(** Signed in, legacy variant; nothing goes wrong. *)
Definition legacySave (others : Step -> list Intrusion) (machine : OsInfo) : Env :=
  make false false false (Some alice) None NoAuthChange others succeed machine
       None (Some liveCell) (Some (terminalOf (Some 4242%Z) (exited 3))).

(** Signed in, reporter variant; nothing goes wrong. *)
Definition reporterSave : Env :=
  make false true false (Some alice) None NoAuthChange never succeed
       (host "localhost" (Some "svc-7")) (Some snapshot) None None.

(** Signed out, triggered by auto-save. *)
Definition anonymousAutoSave : Env :=
  make false false false None None NoAuthChange never succeed
       (host "dev-box" None) None (Some liveCell) (Some (terminalOf None None)).

(** Signed out, force login on, and the forced login succeeds. *)
Definition forcedLogin : Env :=
  make false false true None (Some alice) NoAuthChange never succeed
       (host "dev-box" None) None (Some liveCell) (Some (terminalOf None None)).

(** Signed out, triggered by the user; nobody signs in. *)
Definition userSave (others : Step -> list Intrusion) : Env :=
  make true false false None None NoAuthChange others succeed
       (host "dev-box" None) None (Some liveCell) (Some (terminalOf None None)).

(** Signed in, but the cell is gone from the editor. *)
Definition cellGone : Env :=
  make false false false (Some alice) None NoAuthChange never succeed
       (host "dev-box" None) None None None.

End Scenario.

(* ===================================================================== *)
(** * Basic facts *)

Lemma replies_app t u : replies (t ++ u) = replies t ++ replies u.
Proof. apply flat_map_app. Qed.

Lemma mutations_app t u : mutations (t ++ u) = mutations t ++ mutations u.
Proof. apply flat_map_app. Qed.

Lemma warnings_app t u : warnings (t ++ u) = warnings t ++ warnings u.
Proof. apply flat_map_app. Qed.

Lemma suspensions_app t u : suspensions (t ++ u) = suspensions t ++ suspensions u.
Proof. apply flat_map_app. Qed.

Lemma added_app t u : added (t ++ u) = added t ++ added u.
Proof. apply flat_map_app. Qed.

Lemma removed_app t u : removed (t ++ u) = removed t ++ removed u.
Proof. apply flat_map_app. Qed.

Lemma length_updateAt {A} (f : A -> A) i l : length (updateAt f i l) = length l.
Proof.
  revert i; induction l as [|x l IH]; intros [|i]; simpl; auto.
Qed.

Lemma nth_error_updateAt {A} (f : A -> A) i j l :
  nth_error (updateAt f i l) j =
  if Nat.eqb i j then option_map f (nth_error l j) else nth_error l j.
Proof.
  revert i j; induction l as [|x l IH]; intros [|i] [|j]; simpl; auto;
    destruct (Nat.eqb i j); reflexivity.
Qed.

(** Cancelling a source never clears a cancellation flag. *)
Lemma cancelledIn_cancel h c t :
  cancelledIn h t = true -> cancelledIn (updateAt markCancelled c h) t = true.
Proof.
  unfold cancelledIn. rewrite nth_error_updateAt.
  destruct (Nat.eqb c t); destruct (nth_error h t); simpl; auto.
Qed.

Lemma cancelledIn_cancel_self h c :
  c < length h -> cancelledIn (updateAt markCancelled c h) c = true.
Proof.
  intros Hc. unfold cancelledIn. rewrite nth_error_updateAt, Nat.eqb_refl.
  destruct (nth_error h c) eqn:E; simpl; auto.
  apply nth_error_None in E. lia.
Qed.

Lemma cancelledIn_cancel_other h c t :
  c <> t -> cancelledIn (updateAt markCancelled c h) t = cancelledIn h t.
Proof.
  intros Hne. unfold cancelledIn. rewrite nth_error_updateAt.
  apply Nat.eqb_neq in Hne. rewrite Hne. reflexivity.
Qed.

Lemma cancelledIn_app h x t :
  t < length h -> cancelledIn (h ++ [x]) t = cancelledIn h t.
Proof. intros Ht. unfold cancelledIn. rewrite nth_error_app1; auto. Qed.

Lemma cancelledIn_fresh h :
  cancelledIn (h ++ [{| isCancellationRequested := false; isDisposed := false |}])
              (length h) = false.
Proof.
  unfold cancelledIn. rewrite nth_error_app2, Nat.sub_diag; auto.
Qed.

Lemma disposedIn_cancel h c t :
  disposedIn (updateAt markCancelled c h) t = disposedIn h t.
Proof.
  unfold disposedIn. rewrite nth_error_updateAt.
  destruct (Nat.eqb c t); destruct (nth_error h t); reflexivity.
Qed.

Lemma disposedIn_dispose_self h c :
  c < length h -> disposedIn (updateAt markDisposed c h) c = true.
Proof.
  intros Hc. unfold disposedIn. rewrite nth_error_updateAt, Nat.eqb_refl.
  destruct (nth_error h c) eqn:E; simpl; auto.
  apply nth_error_None in E. lia.
Qed.

Lemma disposedIn_app h x t :
  t < length h -> disposedIn (h ++ [x]) t = disposedIn h t.
Proof. intros Ht. unfold disposedIn. rewrite nth_error_app1; auto. Qed.

(** ** The guard swap, as a change of store and slot *)

Definition swappedHeap (w : World) : list Cts :=
  match currentCts w with
  | Some c => updateAt markCancelled c (heap w)
  | None => heap w
  end ++ [{| isCancellationRequested := false; isDisposed := false |}].

Lemma beginRun_eq w :
  beginRun w =
  (Normal (length (heap w)),
   {| heap := swappedHeap w;
      currentCts := Some (length (heap w));
      listeners := listeners w;
      trace := trace w
               ++ match currentCts w with Some c => [ECancel c] | None => [] end
               ++ [EInstall (length (heap w))] |}).
Proof.
  unfold beginRun, swappedHeap, bind, readSlot.
  destruct (currentCts w) as [c|]; cbn.
  - rewrite length_updateAt, <- app_assoc. reflexivity.
  - reflexivity.
Qed.

Lemma heap_supersede w : heap (supersede w) = swappedHeap w.
Proof. unfold supersede. rewrite beginRun_eq. reflexivity. Qed.

Lemma currentCts_supersede w : currentCts (supersede w) = Some (length (heap w)).
Proof. unfold supersede. rewrite beginRun_eq. reflexivity. Qed.

Lemma length_swappedHeap w : length (swappedHeap w) = S (length (heap w)).
Proof.
  unfold swappedHeap. rewrite length_app. simpl.
  destruct (currentCts w); rewrite ?length_updateAt; lia.
Qed.

(** A newer invocation cancels the token that is installed. *)
Lemma supersede_cancels w token :
  currentCts w = Some token -> token < length (heap w) ->
  cancelledIn (heap (supersede w)) token = true.
Proof.
  intros Hs Ht. rewrite heap_supersede. unfold swappedHeap. rewrite Hs.
  rewrite cancelledIn_app by (rewrite length_updateAt; exact Ht).
  apply cancelledIn_cancel_self; exact Ht.
Qed.

(** A cancelled token stays cancelled. *)
Lemma supersede_keeps_cancelled w token :
  cancelledIn (heap w) token = true ->
  cancelledIn (heap (supersede w)) token = true.
Proof.
  intros Hc. rewrite heap_supersede. unfold swappedHeap.
  assert (Ht : token < length (heap w)).
  { unfold cancelledIn in Hc. destruct (nth_error (heap w) token) eqn:E; [|discriminate].
    apply nth_error_Some. congruence. }
  destruct (currentCts w) as [c|].
  - rewrite cancelledIn_app by (rewrite length_updateAt; exact Ht).
    apply cancelledIn_cancel; exact Hc.
  - rewrite cancelledIn_app; assumption.
Qed.

(** A newer invocation disposes nothing. *)
Lemma supersede_disposes_nothing w c :
  c < length (heap w) ->
  disposedIn (heap (supersede w)) c = disposedIn (heap w) c.
Proof.
  intros Hc. rewrite heap_supersede. unfold swappedHeap.
  destruct (currentCts w) as [d|].
  - rewrite disposedIn_app by (rewrite length_updateAt; exact Hc).
    apply disposedIn_cancel.
  - apply disposedIn_app; exact Hc.
Qed.

Lemma endRun_eq token w :
  endRun token w =
  (Normal tt,
   match currentCts w with
   | Some c =>
       if Nat.eqb c token then
         {| heap := updateAt markDisposed c (heap w);
            currentCts := None;
            listeners := listeners w;
            trace := trace w ++ [EDispose c; EClearSlot] |}
       else w
   | None => w
   end).
Proof.
  unfold endRun, bind, readSlot.
  destruct (currentCts w) as [c|]; [|reflexivity].
  destruct (Nat.eqb c token); [|reflexivity].
  unfold dispose, writeSlot, emit, setHeap. cbn. rewrite <- app_assoc. reflexivity.
Qed.

Lemma cancelledIn_dispose h c t :
  cancelledIn (updateAt markDisposed c h) t = cancelledIn h t.
Proof.
  unfold cancelledIn. rewrite nth_error_updateAt.
  destruct (Nat.eqb c t); destruct (nth_error h t); reflexivity.
Qed.

Lemma disposedIn_dispose_other h c t :
  c <> t -> disposedIn (updateAt markDisposed c h) t = disposedIn h t.
Proof.
  intros Hne. unfold disposedIn. rewrite nth_error_updateAt.
  apply Nat.eqb_neq in Hne. rewrite Hne. reflexivity.
Qed.

Lemma disposedIn_fresh h :
  disposedIn (h ++ [{| isCancellationRequested := false; isDisposed := false |}])
             (length h) = false.
Proof. unfold disposedIn. rewrite nth_error_app2, Nat.sub_diag; auto. Qed.

(** ** What other invocations do to the guard *)

(** The slot holds the run's own token or one created after it. *)
Definition slotAbove (token : nat) (w : World) : Prop :=
  forall t, currentCts w = Some t -> token <= t /\ t < length (heap w).

Lemma heap_retire w t :
  currentCts w = Some t -> heap (retire w) = updateAt markDisposed t (heap w).
Proof.
  intros Hs. unfold retire. rewrite Hs, endRun_eq, Hs, Nat.eqb_refl. reflexivity.
Qed.

Lemma currentCts_retire w t : currentCts w = Some t -> currentCts (retire w) = None.
Proof.
  intros Hs. unfold retire. rewrite Hs, endRun_eq, Hs, Nat.eqb_refl. reflexivity.
Qed.

(** What a sequence of intrusions preserves, from a world in which the
    run's token exists and the slot is at or above it. *)
Definition GuardStep (token : nat) (w w' : World) : Prop :=
  length (heap w) <= length (heap w')
  /\ (forall c, cancelledIn (heap w) c = true -> cancelledIn (heap w') c = true)
  /\ (forall c, c <= token -> disposedIn (heap w') c = disposedIn (heap w) c)
  /\ (currentCts w <> Some token -> currentCts w' <> Some token)
  /\ slotAbove token w'.

Lemma GuardStep_refl token w : slotAbove token w -> GuardStep token w w.
Proof.
  intros H. unfold GuardStep.
  split; [lia|]. split; [auto|]. split; [auto|]. split; [auto | exact H].
Qed.

Lemma GuardStep_trans token w1 w2 w3 :
  GuardStep token w1 w2 -> GuardStep token w2 w3 -> GuardStep token w1 w3.
Proof.
  intros (L1 & C1 & D1 & S1 & A1) (L2 & C2 & D2 & S2 & A2). unfold GuardStep.
  split; [lia|]. split; [auto|]. split; [|split; [auto | exact A2]].
  intros c Hc. rewrite D2, D1; auto.
Qed.

Lemma intrude_step token i w :
  token < length (heap w) -> slotAbove token w -> GuardStep token w (intrude token i w).
Proof.
  intros Ht Ha. destruct i; simpl.
  - (* a newer invocation begins *)
    unfold GuardStep, slotAbove.
    rewrite heap_supersede, currentCts_supersede, length_swappedHeap.
    split; [lia|]. split; [|split; [|split]].
    + intros c Hc. rewrite <- heap_supersede. apply supersede_keeps_cancelled; exact Hc.
    + intros c Hc. rewrite <- heap_supersede.
      apply supersede_disposes_nothing. lia.
    + intros _ H. injection H as H. lia.
    + intros t H. injection H as H. subst t. lia.
  - (* the holder of the slot ends *)
    destruct (currentCts w) as [t|] eqn:Hs; [|apply GuardStep_refl; exact Ha].
    destruct (Nat.eqb t token) eqn:He; [apply GuardStep_refl; exact Ha|].
    apply Nat.eqb_neq in He. destruct (Ha t Hs) as [Hge Hlt].
    unfold GuardStep, slotAbove.
    rewrite (heap_retire _ Hs), (currentCts_retire _ Hs), length_updateAt.
    split; [lia|]. split; [|split; [|split]].
    + intros c Hc. rewrite cancelledIn_dispose. exact Hc.
    + intros c Hc. apply disposedIn_dispose_other. lia.
    + intros _ H. discriminate H.
    + intros t' H. discriminate H.
Qed.

Lemma intrudeAll_step token l w :
  token < length (heap w) -> slotAbove token w -> GuardStep token w (intrudeAll token l w).
Proof.
  revert w. induction l as [|i l IH]; intros w Ht Ha; simpl.
  - apply GuardStep_refl; exact Ha.
  - pose proof (intrude_step i Ht Ha) as H1.
    apply (GuardStep_trans H1). destruct H1 as (L1 & _ & _ & _ & A1).
    apply IH; [lia | exact A1].
Qed.

(** While the run holds the slot, the end of "the holder" is not the end
    of another invocation: nothing happens until a newer one begins. *)
Lemma intrudeAll_quiet token l w :
  existsb isBegin l = false -> currentCts w = Some token -> intrudeAll token l w = w.
Proof.
  revert w. induction l as [|i l IH]; intros w Hq Hs; simpl; [reflexivity|].
  simpl in Hq. apply orb_false_iff in Hq. destruct Hq as [Hi Hl].
  destruct i; [discriminate Hi|]. simpl. rewrite Hs, Nat.eqb_refl. apply IH; assumption.
Qed.

(** As soon as a newer invocation begins, the run's token is cancelled and
    is no longer the one installed. *)
Lemma intrudeAll_begun token l w :
  existsb isBegin l = true -> currentCts w = Some token -> token < length (heap w) ->
  cancelledIn (heap (intrudeAll token l w)) token = true
  /\ currentCts (intrudeAll token l w) <> Some token.
Proof.
  revert w. induction l as [|i l IH]; intros w Hb Hs Ht; simpl; [discriminate Hb|].
  destruct i.
  - clear IH Hb. simpl.
    assert (Ht1 : token < length (heap (supersede w)))
      by (rewrite heap_supersede, length_swappedHeap; lia).
    assert (Ha1 : slotAbove token (supersede w)).
    { intros t H. rewrite currentCts_supersede in H. injection H as H. subst t.
      rewrite heap_supersede, length_swappedHeap. lia. }
    destruct (intrudeAll_step l Ht1 Ha1) as (_ & Hc & _ & Hn & _). split.
    + apply Hc. apply supersede_cancels; assumption.
    + apply Hn. rewrite currentCts_supersede. intros H. injection H as H. lia.
  - simpl. rewrite Hs, Nat.eqb_refl. apply IH; assumption.
Qed.

(** Whatever other invocations do, a cancelled token stays cancelled. *)
Lemma intrudeAll_keeps_cancelled token l w c :
  cancelledIn (heap w) c = true -> cancelledIn (heap (intrudeAll token l w)) c = true.
Proof.
  revert w. induction l as [|i l IH]; intros w Hc; simpl; [exact Hc|].
  apply IH. destruct i; simpl.
  - apply supersede_keeps_cancelled; exact Hc.
  - destruct (currentCts w) as [t|] eqn:Hs; [|exact Hc].
    destruct (Nat.eqb t token); [exact Hc|].
    rewrite (heap_retire _ Hs), cancelledIn_dispose. exact Hc.
Qed.

(* ===================================================================== *)
(** * The footprint of the body

    Whatever path the body of the outer [try] takes, with its [catch]
    block, the world changes only by steps of four kinds: an effect is
    logged, the run is suspended (and a newer invocation may swap the
    guard), the callback is registered, the callback is removed.  The
    body never touches the slot itself and submits only payloads built by
    the two builders. *)

Section Footprint.

Variable stdout : string.
Variable env : Env.

(** The token of the run. *)
Variable token : nat.

(** The mutations the body can send. *)
Inductive Built : Mutation -> Prop :=
| built_reporter c notebook cell :
    reporterEnabled env = true ->
    notebookDataCache env = Some notebook ->
    findCell env notebook = Some cell ->
    c_hostname c = resolveHostname (os env) ->
    Built (CreateExtensionCellOutput (reporterInput stdout env c notebook cell))
| built_legacy c cell terminal fm :
    reporterEnabled env = false ->
    getCellById env (msg_id env) = Some cell ->
    getTerminal env (cell_runmeId cell) = Some terminal ->
    c_hostname c = resolveHostname (os env) ->
    Built (CreateCellExecution
             (legacyInput env c cell terminal (pidOf (processId terminal)) fm)).

(** Effects the body logs with [emit]. *)
Definition bodyEvent (e : Event) : Prop :=
  match e with
  | ECancel _ | EInstall _ | EDispose _ | EClearSlot => False
  | ESuspend _ | EAddListener _ | ERemoveListener _ => False
  | EMutate m => Built m
  | _ => True
  end.

Inductive Reaches : World -> World -> Prop :=
| reaches_refl w : Reaches w w
| reaches_emit w w' e :
    Reaches w w' -> bodyEvent e -> Reaches w (snd (emit e w'))
| reaches_suspend w w' s :
    Reaches w w' -> Reaches w (snd (suspend env token s w'))
| reaches_add w w' cb :
    Reaches w w' -> Reaches w (snd (addListener cb w'))
| reaches_remove w w' cb :
    Reaches w w' -> Reaches w (snd (removeListener cb w')).

Lemma reaches_trans w1 w2 w3 : Reaches w1 w2 -> Reaches w2 w3 -> Reaches w1 w3.
Proof.
  intros H12 H23. induction H23.
  - assumption.
  - apply reaches_emit; auto.
  - apply reaches_suspend; auto.
  - apply reaches_add; auto.
  - apply reaches_remove; auto.
Qed.

(** A program stays within the footprint. *)
Definition within {A} (m : M A) : Prop := forall w, Reaches w (snd (m w)).

Lemma within_ret {A} (a : A) : within (ret a).
Proof. intros w. apply reaches_refl. Qed.

Lemma within_return {A} : within (@return_ A).
Proof. intros w. apply reaches_refl. Qed.

Lemma within_throw {A} e : within (@throw A e).
Proof. intros w. apply reaches_refl. Qed.

Lemma within_bind {A B} (m : M A) (f : A -> M B) :
  within m -> (forall a, within (f a)) -> within (bind m f).
Proof.
  intros Hm Hf w. unfold bind. specialize (Hm w).
  destruct (m w) as [[a| |e] w']; simpl in *; auto.
  eapply reaches_trans; [exact Hm | apply Hf].
Qed.

Lemma within_try_catch {A} (body : M A) handler :
  within body -> (forall e, within (handler e)) -> within (try_catch body handler).
Proof.
  intros Hb Hh w. unfold try_catch. specialize (Hb w).
  destruct (body w) as [[a| |e] w']; simpl in *; auto.
  eapply reaches_trans; [exact Hb | apply Hh].
Qed.

Lemma within_try_finally {A} (body : M A) fin :
  within body -> (forall o, within (fin o)) -> within (try_finally body fin).
Proof.
  intros Hb Hf w. unfold try_finally. specialize (Hb w).
  destruct (body w) as [c w']; simpl in *.
  match goal with |- context [fin ?o w'] => specialize (Hf o w'); destruct (fin o w') as [[u| |e] w''] end;
    simpl in *; eapply reaches_trans; eauto.
Qed.

Lemma within_emit e : bodyEvent e -> within (emit e).
Proof. intros He w. apply reaches_emit; [apply reaches_refl | exact He]. Qed.

Lemma within_suspend s : within (suspend env token s).
Proof. intros w. apply reaches_suspend, reaches_refl. Qed.

Lemma within_await {A} s (v : A) : within (await env token s v).
Proof.
  unfold await. apply within_bind; [apply within_suspend|].
  intros _. destruct (fails env s); [apply within_throw | apply within_ret].
Qed.

Lemma within_await_bind {A B} s (v : A) (f : A -> M B) :
  within (f v) -> within (bind (await env token s v) f).
Proof.
  intros Hf w. unfold bind, await, suspend, bind.
  destruct (fails env s); simpl.
  - apply (reaches_suspend s (reaches_refl w)).
  - eapply reaches_trans; [apply (reaches_suspend s (reaches_refl w)) | apply Hf].
Qed.

Lemma within_tokenCancelled t : within (tokenCancelled t).
Proof. intros w. apply reaches_refl. Qed.

Lemma within_addListener cb : within (addListener cb).
Proof. intros w. apply reaches_add, reaches_refl. Qed.

Lemma within_removeListener cb : within (removeListener cb).
Proof. intros w. apply reaches_remove, reaches_refl. Qed.

Ltac footprint :=
  repeat first
    [ apply within_ret | apply within_return | apply within_throw
    | apply within_await | apply within_suspend
    | apply within_tokenCancelled
    | apply within_addListener | apply within_removeListener
    | apply within_emit; simpl; auto
    | apply within_await_bind
    | apply within_bind; [|intros]
    | apply within_try_finally; [|intros]
    | match goal with
      | |- within (if ?b then _ else _) => destruct b eqn:?
      | |- within (match ?x with _ => _ end) => destruct x eqn:?
      end ].

Lemma within_resolveSession : within (resolveSession env token).
Proof.
  unfold resolveSession, interactiveLogin, authRace, afterRace, postClientMessage.
  footprint.
Qed.

Lemma within_saveWithReporter c :
  reporterEnabled env = true ->
  c_hostname c = resolveHostname (os env) ->
  within (saveWithReporter stdout env token c).
Proof.
  intros Hr Hc. unfold saveWithReporter. footprint.
  eapply built_reporter; eauto.
Qed.

Lemma within_saveLegacy c :
  reporterEnabled env = false ->
  c_hostname c = resolveHostname (os env) ->
  within (saveLegacy env token c).
Proof.
  intros Hr Hc. unfold saveLegacy, parsedFrontmatter. footprint;
    eapply built_legacy; eauto.
Qed.

Lemma within_pipeline :
  within (pipeline stdout env (reporterEnabled env) token).
Proof.
  unfold pipeline, postClientMessage.
  apply within_bind; [apply within_resolveSession | intros session].
  footprint;
    first [ apply within_saveWithReporter; solve [auto]
          | unfold parsedFrontmatter; solve [footprint]
          | eapply built_legacy; solve [eauto] ].
Qed.

Lemma within_errorBoundary e : within (errorBoundary env e).
Proof. unfold errorBoundary, postClientMessage. footprint. Qed.

(** The outer [try] with its [catch] stays within the footprint. *)
Lemma within_body :
  within (try_catch (pipeline stdout env (reporterEnabled env) token)
                    (errorBoundary env)).
Proof.
  apply within_try_catch; [apply within_pipeline | apply within_errorBoundary].
Qed.

End Footprint.

(* ===================================================================== *)
(** * The shape of one invocation *)

(** The world right after lines 67-72. *)
Definition began (w : World) : World := snd (beginRun (start w)).

(** The outer [try] with its [catch]. *)
Definition body (stdout : string) (env : Env) (token : nat) : M unit :=
  try_catch (pipeline stdout env (reporterEnabled env) token) (errorBoundary env).

Lemma began_eq w :
  began w =
  {| heap := swappedHeap w;
     currentCts := Some (length (heap w));
     listeners := listeners w;
     trace := match currentCts w with Some c => [ECancel c] | None => [] end
              ++ [EInstall (length (heap w))] |}.
Proof. unfold began. rewrite beginRun_eq. reflexivity. Qed.

Lemma run_eq stdout env w :
  run stdout env w =
  snd (endRun (length (heap w)) (snd (body stdout env (length (heap w)) (began w)))).
Proof.
  unfold run, saveCellExecution, bind, began.
  rewrite beginRun_eq. cbn [fst snd heap start].
  unfold try_finally. fold (body stdout env (length (heap w))).
  match goal with |- context [body ?a ?b ?c ?d] => destruct (body a b c d) as [c0 w2] end.
  cbn [snd]. rewrite endRun_eq. destruct c0; reflexivity.
Qed.

(** Lines 389-394 post nothing, submit nothing and warn nobody. *)
Lemma replies_endRun token w : replies (trace (snd (endRun token w))) = replies (trace w).
Proof.
  rewrite endRun_eq. simpl. destruct (currentCts w) as [c|]; auto.
  destruct (Nat.eqb c token); auto. simpl. rewrite replies_app. simpl. apply app_nil_r.
Qed.

Lemma mutations_endRun token w :
  mutations (trace (snd (endRun token w))) = mutations (trace w).
Proof.
  rewrite endRun_eq. simpl. destruct (currentCts w) as [c|]; auto.
  destruct (Nat.eqb c token); auto. simpl. rewrite mutations_app. simpl. apply app_nil_r.
Qed.

Lemma warnings_endRun token w :
  warnings (trace (snd (endRun token w))) = warnings (trace w).
Proof.
  rewrite endRun_eq. simpl. destruct (currentCts w) as [c|]; auto.
  destruct (Nat.eqb c token); auto. simpl. rewrite warnings_app. simpl. apply app_nil_r.
Qed.

Lemma replies_began w : replies (trace (began w)) = [].
Proof. rewrite began_eq. simpl. destruct (currentCts w); reflexivity. Qed.

Lemma mutations_began w : mutations (trace (began w)) = [].
Proof. rewrite began_eq. simpl. destruct (currentCts w); reflexivity. Qed.

Lemma warnings_began w : warnings (trace (began w)) = [].
Proof. rewrite began_eq. simpl. destruct (currentCts w); reflexivity. Qed.

(* ===================================================================== *)
(** * Following one path: weakest preconditions *)

Definition wp {A} (m : M A) (Q : Completion A -> World -> Prop) (w : World) : Prop :=
  Q (fst (m w)) (snd (m w)).

(** The postcondition of [m] when [f] follows it. *)
Definition after {A B} (f : A -> M B) (Q : Completion B -> World -> Prop)
  : Completion A -> World -> Prop :=
  fun c w =>
    match c with
    | Normal a => wp (f a) Q w
    | Return => Q Return w
    | Throw e => Q (Throw e) w
    end.

(** The postcondition of the body of a [try] with a [catch]. *)
Definition caught {A} (handler : Js.Thrown -> M A) (Q : Completion A -> World -> Prop)
  : Completion A -> World -> Prop :=
  fun c w =>
    match c with
    | Throw e => wp (handler e) Q w
    | _ => Q c w
    end.

(** The postcondition of the body of a [try] with a [finally]. *)
Definition finally {A} (fin : option A -> M unit) (Q : Completion A -> World -> Prop)
  : Completion A -> World -> Prop :=
  fun c w =>
    wp (fin (match c with Normal a => Some a | _ => None end))
       (fun c' w' =>
          match c' with
          | Normal _ => Q c w'
          | Return => Q Return w'
          | Throw e => Q (Throw e) w'
          end) w.

Definition emitted (e : Event) (w : World) : World := snd (emit e w).
Definition registered (cb : nat) (w : World) : World := snd (addListener cb w).
Definition unregistered (cb : nat) (w : World) : World := snd (removeListener cb w).

Section WeakestPre.

Variable env : Env.

(** The token of the run. *)
Variable token : nat.

Definition suspended (s : Step) (w : World) : World := snd (suspend env token s w).

Lemma wp_bind {A B} (m : M A) (f : A -> M B) Q w :
  wp m (after f Q) w -> wp (bind m f) Q w.
Proof.
  unfold wp, after, bind. destruct (m w) as [[a| |e] w']; simpl; auto.
Qed.

Lemma wp_ret {A} (a : A) Q w : Q (Normal a) w -> wp (ret a) Q w.
Proof. auto. Qed.

Lemma wp_return {A} (Q : Completion A -> World -> Prop) w :
  Q Return w -> wp return_ Q w.
Proof. auto. Qed.

Lemma wp_throw {A} e (Q : Completion A -> World -> Prop) w :
  Q (Throw e) w -> wp (throw e) Q w.
Proof. auto. Qed.

Lemma wp_try_catch {A} (b : M A) handler Q w :
  wp b (caught handler Q) w -> wp (try_catch b handler) Q w.
Proof.
  unfold wp, caught, try_catch. destruct (b w) as [[a| |e] w']; simpl; auto.
Qed.

Lemma wp_try_finally {A} (b : M A) fin Q w :
  wp b (finally fin Q) w -> wp (try_finally b fin) Q w.
Proof.
  unfold finally, try_finally, wp. destruct (b w) as [c w']; simpl.
  match goal with |- context [fin ?o w'] => destruct (fin o w') as [[u| |e] w''] end;
    simpl; auto.
Qed.

Lemma wp_emit e Q w : Q (Normal tt) (emitted e w) -> wp (emit e) Q w.
Proof. auto. Qed.

Lemma wp_post r Q w : Q (Normal tt) (emitted (EReply r) w) -> wp (postClientMessage r) Q w.
Proof. auto. Qed.

Lemma wp_suspend s Q w :
  Q (Normal tt) (suspended s w) -> wp (suspend env token s) Q w.
Proof. auto. Qed.

Lemma wp_await_ok {A} s (v : A) Q w :
  fails env s = None -> Q (Normal v) (suspended s w) -> wp (await env token s v) Q w.
Proof. intros Hf HQ. unfold wp, await, bind. simpl. rewrite Hf. exact HQ. Qed.

Lemma wp_await_fail {A} s (v : A) msg Q w :
  fails env s = Some msg ->
  Q (Throw (Js.Error msg)) (suspended s w) -> wp (await env token s v) Q w.
Proof. intros Hf HQ. unfold wp, await, bind. simpl. rewrite Hf. exact HQ. Qed.

Lemma wp_tokenCancelled t Q w :
  Q (Normal (cancelledIn (heap w) t)) w -> wp (tokenCancelled t) Q w.
Proof. auto. Qed.

Lemma wp_addListener cb Q w :
  Q (Normal tt) (registered cb w) -> wp (addListener cb) Q w.
Proof. auto. Qed.

Lemma wp_removeListener cb Q w :
  Q (Normal tt) (unregistered cb w) -> wp (removeListener cb) Q w.
Proof. auto. Qed.

(** ** What each step does to the world *)

Lemma trace_emitted e w : trace (emitted e w) = trace w ++ [e].
Proof. reflexivity. Qed.

Lemma trace_suspended s w : trace (suspended s w) = trace w ++ [ESuspend s].
Proof. reflexivity. Qed.

Lemma trace_registered cb w : trace (registered cb w) = trace w ++ [EAddListener cb].
Proof. reflexivity. Qed.

Lemma trace_unregistered cb w :
  trace (unregistered cb w) = trace w ++ [ERemoveListener cb].
Proof. reflexivity. Qed.

Lemma heap_emitted e w : heap (emitted e w) = heap w.
Proof. reflexivity. Qed.

Lemma heap_registered cb w : heap (registered cb w) = heap w.
Proof. reflexivity. Qed.

Lemma heap_unregistered cb w : heap (unregistered cb w) = heap w.
Proof. reflexivity. Qed.

Lemma heap_suspended s w : heap (suspended s w) = heap (interrupted env token s w).
Proof. reflexivity. Qed.

Lemma currentCts_emitted e w : currentCts (emitted e w) = currentCts w.
Proof. reflexivity. Qed.

Lemma currentCts_registered cb w : currentCts (registered cb w) = currentCts w.
Proof. reflexivity. Qed.

Lemma currentCts_unregistered cb w : currentCts (unregistered cb w) = currentCts w.
Proof. reflexivity. Qed.

Lemma currentCts_suspended s w :
  currentCts (suspended s w) = currentCts (interrupted env token s w).
Proof. reflexivity. Qed.

(** No newer invocation begins while the run, holding the slot, is
    suspended: store and slot are as before. *)
Lemma suspended_quiet s w :
  interrupts env s = false -> currentCts w = Some token ->
  heap (suspended s w) = heap w /\ currentCts (suspended s w) = Some token.
Proof.
  intros Hq Hs. rewrite heap_suspended, currentCts_suspended.
  unfold interrupted. rewrite (intrudeAll_quiet _ _ Hq Hs). auto.
Qed.

Lemma suspended_step s w :
  token < length (heap w) -> slotAbove token w -> GuardStep token w (suspended s w).
Proof.
  intros Ht Ha. pose proof (intrudeAll_step (intrusions env s) Ht Ha) as H.
  exact H.
Qed.

Lemma listeners_emitted e w : listeners (emitted e w) = listeners w.
Proof. reflexivity. Qed.

Lemma listeners_suspended s w : listeners (suspended s w) = listeners w.
Proof. reflexivity. Qed.

Lemma listeners_registered cb w : listeners (registered cb w) = listeners w ++ [cb].
Proof. reflexivity. Qed.

Lemma listeners_unregistered cb w :
  listeners (unregistered cb w) = filter (fun l => negb (Nat.eqb l cb)) (listeners w).
Proof. reflexivity. Qed.

(** ** The run's own token *)

(** The token is installed and not cancelled. *)
Definition live (w : World) : Prop :=
  currentCts w = Some token /\ token < length (heap w)
  /\ cancelledIn (heap w) token = false.

(** A newer invocation has cancelled the token. *)
Definition stale (w : World) : Prop :=
  cancelledIn (heap w) token = true.

Lemma live_emitted e w : live w -> live (emitted e w).
Proof. auto. Qed.

Lemma live_registered cb w : live w -> live (registered cb w).
Proof. auto. Qed.

Lemma live_unregistered cb w : live w -> live (unregistered cb w).
Proof. auto. Qed.

Lemma live_suspended s w :
  interrupts env s = false -> live w -> live (suspended s w).
Proof.
  intros Hi (Hs & Hl & Hc). unfold live.
  destruct (suspended_quiet s w Hi Hs) as [Hh Hs']. rewrite Hh, Hs'. auto.
Qed.

Lemma stale_emitted e w : stale w -> stale (emitted e w).
Proof. auto. Qed.

Lemma stale_registered cb w : stale w -> stale (registered cb w).
Proof. auto. Qed.

Lemma stale_unregistered cb w :
  stale w -> stale (unregistered cb w).
Proof. auto. Qed.

Lemma stale_suspended s w : stale w -> stale (suspended s w).
Proof.
  unfold stale. intros Hc. rewrite heap_suspended.
  apply intrudeAll_keeps_cancelled; exact Hc.
Qed.

Lemma stale_interrupted s w :
  interrupts env s = true -> live w -> stale (suspended s w).
Proof.
  unfold stale. intros Hi (Hs & Hl & _). rewrite heap_suspended.
  apply intrudeAll_begun; assumption.
Qed.

Lemma live_not_cancelled w : live w -> cancelledIn (heap w) token = false.
Proof. intros (_ & _ & H); exact H. Qed.

End WeakestPre.

Lemma live_began w : live (length (heap w)) (began w).
Proof.
  rewrite began_eq. unfold live. simpl. split; [reflexivity|].
  rewrite length_swappedHeap. split; [lia|].
  unfold swappedHeap. destruct (currentCts w) as [c|].
  - rewrite <- (length_updateAt markCancelled c (heap w)). apply cancelledIn_fresh.
  - apply cancelledIn_fresh.
Qed.

Arguments emitted : simpl never.
Arguments registered : simpl never.
Arguments unregistered : simpl never.
Arguments suspended : simpl never.

Create HintDb guard.
Create Rewrite HintDb observe.
#[export] Hint Resolve live_emitted live_registered live_unregistered live_suspended
  stale_emitted stale_registered stale_unregistered stale_suspended
  stale_interrupted live_began : guard.

#[export] Hint Rewrite trace_emitted trace_suspended trace_registered trace_unregistered
  listeners_emitted listeners_suspended listeners_registered listeners_unregistered
  replies_app mutations_app warnings_app suspensions_app added_app removed_app
  : observe.

(* ===================================================================== *)
(** * Paths through the pipeline *)

Ltac wp_simpl :=
  cbn [after caught negb andb Js.isSome];
  try lazymatch goal with |- finally _ _ _ _ => unfold finally at 1 end;
  cbv beta iota.

Ltac wp_step :=
  lazymatch goal with
  | |- wp (bind _ _) _ _ => apply wp_bind
  | |- wp (ret _) _ _ => apply wp_ret
  | |- wp return_ _ _ => apply wp_return
  | |- wp (throw _) _ _ => apply wp_throw
  | |- wp (emit _) _ _ => apply wp_emit
  | |- wp (postClientMessage _) _ _ => apply wp_post
  | |- wp (suspend _ _ _) _ _ => apply wp_suspend
  | |- wp (tokenCancelled _) _ _ => apply wp_tokenCancelled
  | |- wp (addListener _) _ _ => apply wp_addListener
  | |- wp (removeListener _) _ _ => apply wp_removeListener
  | |- wp (try_catch _ _) _ _ => apply wp_try_catch
  | |- wp (try_finally _ _) _ _ => apply wp_try_finally
  | |- wp (await _ _ _ _) _ _ =>
      first [ apply wp_await_ok; [assumption|]
            | eapply wp_await_fail; [eassumption|] ]
  end;
  wp_simpl.

(** Settle a test of the run's own token from what is known of the guard. *)
Ltac settle_token :=
  match goal with
  | |- context [cancelledIn (heap ?W) ?t] =>
      first
        [ replace (cancelledIn (heap W) t) with false
            by (symmetry; apply live_not_cancelled; auto 20 with guard)
        | replace (cancelledIn (heap W) t) with true
            by (symmetry; change (stale t W); auto 20 with guard) ]
  end.

Ltac wp_go := repeat first [ wp_step | progress (settle_token; cbn iota) ].

(** Read the observations off a world built by the steps. *)
Ltac observe :=
  autorewrite with observe;
  cbn [replies mutations warnings added removed flat_map app].

Section Paths.

Variable stdout : string.
Variable env : Env.

(** The token of the run. *)
Variable token : nat.

(** Observations of a whole invocation, from those of its body. *)
Lemma run_observed w (P : list Reply -> list Mutation -> list string -> Prop) :
  (forall w1,
      live (length (heap w)) w1 ->
      replies (trace w1) = [] -> mutations (trace w1) = [] ->
      warnings (trace w1) = [] ->
      wp (body stdout env (length (heap w)))
         (fun _ w' => P (replies (trace w')) (mutations (trace w'))
                        (warnings (trace w'))) w1) ->
  let t := trace (run stdout env w) in
  P (replies t) (mutations t) (warnings t).
Proof.
  intros H t. subst t.
  rewrite run_eq, replies_endRun, mutations_endRun, warnings_endRun.
  apply (H (began w)).
  - apply live_began.
  - apply replies_began.
  - apply mutations_began.
  - apply warnings_began.
Qed.

(** Lines 137-154 when the session variable is undefined. *)
Lemma wp_without_session w (Q : Completion unit -> World -> Prop) :
  contextOk env ->
  (forall w', replies (trace w') = replies (trace w) ++ [displayShareFalse env] ->
              mutations (trace w') = mutations (trace w) ->
              warnings (trace w') = warnings (trace w) ->
              Q Return w') ->
  wp (await env token AwInitClient tt ;;
      g <- await env token AwGitContext (gitCtx env) ;;
      fileContent <- (if Js.truthy (fsPath env)
                      then content <- await env token AwReadFile (fileBytes env) ;;
                           ret (Some content)
                      else ret None) ;;
      postClientMessage (displayShareFalse env) ;; return_) Q w.
Proof.
  intros (Hi & Hg & Hr) HQ.
  do 5 wp_step.
  destruct (Js.truthy (fsPath env)).
  - specialize (Hr eq_refl). repeat wp_step. apply HQ; observe;
      rewrite ?app_nil_r; reflexivity.
  - repeat wp_step. apply HQ; observe; rewrite ?app_nil_r; reflexivity.
Qed.

(** Two worlds with the same replies, mutations and warnings. *)
Definition sameObserved (w w' : World) : Prop :=
  replies (trace w') = replies (trace w)
  /\ mutations (trace w') = mutations (trace w)
  /\ warnings (trace w') = warnings (trace w).

Ltac same_observed :=
  unfold sameObserved; observe; rewrite ?app_nil_r; auto.

(** The gate when nobody asked for a login: lines 84-135 are skipped. *)
Lemma wp_gate_skipped w (Q : Completion (option Session) -> World -> Prop) :
  noSession env -> msg_isUserAction env = false ->
  (forall w', sameObserved w w' -> Q (Normal None) w') ->
  wp (resolveSession env token) Q w.
Proof.
  intros (Hc & Hcs & Hforce) Hu HQ. unfold resolveSession.
  do 3 wp_step. rewrite Hcs. cbn [negb Js.isSome andb].
  destruct (forceLogin env).
  - destruct (Hforce eq_refl) as [Hn Hns]. wp_step. rewrite Hns, Hu.
    cbn [negb Js.isSome andb]. wp_step. apply HQ. same_observed.
  - wp_step. rewrite Hu. cbn [negb Js.isSome andb]. wp_step.
    apply HQ. same_observed.
Qed.

(** The gate when the timer wins the race. *)
Lemma wp_gate_timeout w (Q : Completion (option Session) -> World -> Prop) :
  interactive env -> undisturbed env -> (forall s, authSignal env <> AuthFired s) ->
  live token w ->
  (forall w', replies (trace w') = replies (trace w) ++ [displayShareFalse env] ->
              mutations (trace w') = mutations (trace w) ->
              warnings (trace w') = warnings (trace w) ++ [timeoutWarning] ->
              Q Return w') ->
  wp (resolveSession env token) Q w.
Proof.
  intros ((Hc & Hcs & Hforce) & Hu & Hp) (I1 & I2 & I3 & I4) Hsig Hlive HQ.
  unfold resolveSession, interactiveLogin, authRace, afterRace.
  do 3 wp_step. rewrite Hcs. cbn [negb Js.isSome andb].
  destruct (forceLogin env).
  - destruct (Hforce eq_refl) as [Hn Hns]. specialize (I2 eq_refl).
    wp_step. rewrite Hns, Hu. cbn [negb Js.isSome andb]. wp_go.
    destruct (authSignal env) as [| |s] eqn:Hs; [| |destruct (Hsig s); reflexivity];
      wp_go; cbn [negb Js.isSome]; wp_go;
      apply HQ; observe; rewrite ?app_nil_r; reflexivity.
  - wp_step. rewrite Hu. cbn [negb Js.isSome andb]. wp_go.
    destruct (authSignal env) as [| |s] eqn:Hs; [| |destruct (Hsig s); reflexivity];
      wp_go; cbn [negb Js.isSome]; wp_go;
      apply HQ; observe; rewrite ?app_nil_r; reflexivity.
Qed.

(** The listener on the same path, when no auth-state change arrives: the
    callback registered at line 96 is never removed. *)
Lemma wp_gate_timeout_listener w (Q : Completion (option Session) -> World -> Prop) :
  interactive env -> undisturbed env -> authSignal env = NoAuthChange ->
  live token w ->
  (forall w', added (trace w') = added (trace w) ++ [token] ->
              removed (trace w') = removed (trace w) ->
              listeners w' = listeners w ++ [token] ->
              Q Return w') ->
  wp (resolveSession env token) Q w.
Proof.
  intros ((Hc & Hcs & Hforce) & Hu & Hp) (I1 & I2 & I3 & I4) Hsig Hlive HQ.
  unfold resolveSession, interactiveLogin, authRace, afterRace.
  do 3 wp_step. rewrite Hcs. wp_simpl.
  destruct (forceLogin env).
  - destruct (Hforce eq_refl) as [Hn Hns]. specialize (I2 eq_refl).
    wp_step. rewrite Hns, Hu. wp_simpl. wp_go. rewrite Hsig. wp_go.
    apply HQ; observe; rewrite ?app_nil_r; reflexivity.
  - wp_step. rewrite Hu. wp_simpl. wp_go. rewrite Hsig. wp_go.
    apply HQ; observe; rewrite ?app_nil_r; reflexivity.
Qed.

(** The gate when a newer invocation starts before the race settles:
    the run returns at line 99 or at line 118. *)
Lemma wp_gate_superseded w (Q : Completion (option Session) -> World -> Prop) :
  interactive env -> supersededInGate env -> live token w ->
  (forall w', sameObserved w w' -> Q Return w') ->
  wp (resolveSession env token) Q w.
Proof.
  intros ((Hc & Hcs & Hforce) & Hu & Hp) Hsup Hlive HQ.
  unfold resolveSession, interactiveLogin, authRace, afterRace.
  do 3 wp_step. rewrite Hcs. cbn [negb Js.isSome andb].
  destruct (interrupts env AwCurrentSession) eqn:I1;
    destruct (interrupts env AwOpenCloudPanel) eqn:I3;
    destruct (interrupts env AwAuthRace) eqn:I4;
    destruct (forceLogin env) eqn:Hf;
    try (destruct (Hforce eq_refl) as [Hn Hns];
         destruct (interrupts env AwNewSession) eqn:I2);
    try (exfalso; destruct Hsup as [H|[[H1 H2]|[H|H]]]; congruence);
    wp_step; rewrite ?Hns, Hu; cbn [negb Js.isSome andb]; wp_go;
    try (apply HQ; same_observed);
    destruct (authSignal env); wp_go; apply HQ; same_observed.
Qed.

Lemma wp_gate_signed_in w (Q : Completion (option Session) -> World -> Prop) :
  SignedIn env -> live token w ->
  (forall s w', sameObserved w w' -> Q (Normal (Some s)) w') ->
  wp (resolveSession env token) Q w.
Proof.
  intros Hin Hlive HQ. unfold resolveSession, interactiveLogin, authRace, afterRace.
  destruct Hin as [s Hc Hcs | s Hc Hcs Hf Hn Hns
                  | s ((Hc & Hcs & Hforce) & Hu & Hp) (I1 & I2 & I3 & I4) Hsig].
  - do 3 wp_step. rewrite Hcs. wp_simpl. wp_go. apply HQ. same_observed.
  - do 3 wp_step. rewrite Hcs, Hf. wp_simpl. wp_step.
    rewrite Hns. wp_simpl. wp_go. apply HQ. same_observed.
  - do 3 wp_step. rewrite Hcs. wp_simpl.
    destruct (forceLogin env).
    + destruct (Hforce eq_refl) as [Hn Hns]. specialize (I2 eq_refl).
      wp_step. rewrite Hns, Hu. wp_simpl. wp_go.
      rewrite Hsig. wp_go. apply HQ. same_observed.
    + wp_step. rewrite Hu. wp_simpl. wp_go.
      rewrite Hsig. wp_go. apply HQ. same_observed.
Qed.

Lemma not_found_body w message :
  SignedIn env -> collectorOk env -> NotFound env message -> live token w ->
  wp (body stdout env token)
     (fun _ w' => replies (trace w') = replies (trace w) ++ [failureReply env message]
                  /\ mutations (trace w') = mutations (trace w)) w.
Proof.
  intros Hin ((Hi & Hg & Hr) & Hs & Hp & Hm) Hnf Hlive.
  unfold body, pipeline. do 2 wp_step.
  apply wp_gate_signed_in; [assumption | assumption |].
  intros s w' (R & M & W). wp_simpl. do 5 wp_step.
  assert (Hfile : forall (Q : Completion (option bytes) -> World -> Prop) w0,
             (forall o w1, sameObserved w0 w1 -> Q (Normal o) w1) ->
             wp (if Js.truthy (fsPath env)
                 then content <- await env token AwReadFile (fileBytes env) ;;
                      ret (Some content)
                 else ret None) Q w0).
  { intros Q w0 HQ. destruct (Js.truthy (fsPath env)).
    - specialize (Hr eq_refl). wp_go. apply HQ. same_observed.
    - wp_go. apply HQ. same_observed. }
  apply Hfile. intros o w1 (R1 & M1 & W1). wp_simpl.
  destruct Hnf as [Hrep Hnb | notebook Hrep Hnb Hcell | Hrep Hget Hcell
                  | cell Hrep Hget Hcell Hterm];
    wp_go; rewrite Hrep; unfold saveWithReporter, saveLegacy;
    rewrite ?Hnb, ?Hcell; wp_go; rewrite ?Hcell, ?Hterm; wp_go;
    unfold errorBoundary; wp_go;
    (split; observe; rewrite ?app_nil_r;
     [rewrite R1 | rewrite M1]; observe; rewrite ?app_nil_r;
     unfold failureReply; congruence).
Qed.

End Paths.

(* ===================================================================== *)
(** * What holds on every path *)

Section Invariants.

Variable stdout : string.
Variable env : Env.

(** The token of the run. *)
Variable token : nat.

(** Effects found in the part of the trace the body writes. *)
Definition bodyTrace (e : Event) : Prop :=
  match e with
  | ECancel _ | EInstall _ | EDispose _ | EClearSlot => False
  | EMutate m => Built stdout env m
  | _ => True
  end.

Lemma reaches_trace w w' :
  Reaches stdout env token w w' ->
  exists l, trace w' = trace w ++ l /\ Forall bodyTrace l.
Proof.
  induction 1 as [w | w w' e _ (l & Hl & Hf) He | w w' s _ (l & Hl & Hf)
                 | w w' cb _ (l & Hl & Hf) | w w' cb _ (l & Hl & Hf)].
  - exists []. rewrite app_nil_r. auto.
  - exists (l ++ [e]). simpl. rewrite Hl, app_assoc. split; auto.
    apply Forall_app. split; auto. constructor; auto.
    destruct e; simpl in *; auto.
  - exists (l ++ [ESuspend s]). simpl. rewrite Hl, app_assoc. split; auto.
    apply Forall_app. split; auto. constructor; simpl; auto.
  - exists (l ++ [EAddListener cb]). simpl. rewrite Hl, app_assoc. split; auto.
    apply Forall_app. split; auto. constructor; simpl; auto.
  - exists (l ++ [ERemoveListener cb]). simpl. rewrite Hl, app_assoc. split; auto.
    apply Forall_app. split; auto. constructor; simpl; auto.
Qed.

(** During the body the store only grows, cancellation flags are never
    cleared, no source created up to the run's own is disposed, and the
    slot never returns to the run once it has left it. *)
Lemma reaches_guard w w' :
  Reaches stdout env token w w' ->
  token < length (heap w) -> slotAbove token w -> GuardStep token w w'.
Proof.
  intros HR Ht Ha.
  induction HR as [w | w w' e _ IH He | w w' s _ IH | w w' cb _ IH | w w' cb _ IH];
    try (exact (IH Ht Ha)).
  - apply GuardStep_refl; exact Ha.
  - specialize (IH Ht Ha). apply (GuardStep_trans IH).
    destruct IH as (Hlen & _ & _ & _ & Ha').
    apply (suspended_step env); [lia | exact Ha'].
Qed.

(** The slot during the body: the run's own token until a newer
    invocation begins, another token or none from then on. *)
Definition guarded (w : World) : Prop :=
  token < length (heap w) /\ slotAbove token w
  /\ if existsb (interrupts env) (suspensions (trace w))
     then currentCts w <> Some token
     else currentCts w = Some token.

Lemma guarded_same w w' :
  heap w' = heap w -> currentCts w' = currentCts w ->
  suspensions (trace w') = suspensions (trace w) ->
  guarded w -> guarded w'.
Proof.
  intros Hh Hc Hs. unfold guarded, slotAbove. rewrite Hh, Hc, Hs. auto.
Qed.

Lemma reaches_guarded w w' :
  Reaches stdout env token w w' -> guarded w -> guarded w'.
Proof.
  intros HR Hg.
  induction HR as [w | w w' e _ IH He | w w' s _ IH | w w' cb _ IH | w w' cb _ IH].
  - exact Hg.
  - apply (guarded_same (w := w')); auto. simpl.
    rewrite suspensions_app.
    replace (suspensions [e]) with (@nil Step) by (destruct e; simpl in *; tauto).
    apply app_nil_r.
  - specialize (IH Hg). destruct IH as (Hlt & Ha & Hslot).
    change (snd (suspend env token s w')) with (suspended env token s w').
    destruct (suspended_step env s Hlt Ha) as (Hlen & _ & _ & Hne & Ha').
    unfold guarded. split; [lia|]. split; [exact Ha'|].
    rewrite trace_suspended, suspensions_app, existsb_app. simpl.
    rewrite orb_false_r.
    destruct (existsb (interrupts env) (suspensions (trace w'))) eqn:Hbefore; simpl.
    + apply Hne; exact Hslot.
    + destruct (interrupts env s) eqn:Hi.
      * apply (@intrudeAll_begun token (intrusions env s) w' Hi Hslot Hlt).
      * change (currentCts (suspended env token s w') = Some token).
        apply (suspended_quiet env s w' Hi Hslot).
  - apply (guarded_same (w := w')); auto. simpl.
    rewrite suspensions_app. simpl. apply app_nil_r.
  - apply (guarded_same (w := w')); auto. simpl.
    rewrite suspensions_app. simpl. apply app_nil_r.
Qed.

End Invariants.

Section WholeRun.

Variable stdout : string.
Variable env : Env.

(** The world in which the outer [finally] block starts. *)
Definition bodyEnd (w : World) : World :=
  snd (body stdout env (length (heap w)) (began w)).

Lemma reaches_bodyEnd w :
  Reaches stdout env (length (heap w)) (began w) (bodyEnd w).
Proof. apply within_body. Qed.

Lemma run_bodyEnd w : run stdout env w = snd (endRun (length (heap w)) (bodyEnd w)).
Proof. apply run_eq. Qed.

Lemma began_guarded w : guarded env (length (heap w)) (began w).
Proof.
  rewrite began_eq. unfold guarded, slotAbove. cbn [heap trace currentCts].
  rewrite length_swappedHeap. split; [lia|]. split.
  - intros t H. injection H as H. lia.
  - destruct (currentCts w); reflexivity.
Qed.

(** Every mutation an invocation sends was built by one of the two
    builders, from the lookups of its own variant. *)
Lemma run_mutations_built w :
  Forall (Built stdout env) (mutations (trace (run stdout env w))).
Proof.
  rewrite run_bodyEnd, mutations_endRun.
  destruct (reaches_trace (reaches_bodyEnd w)) as (l & Hl & Hf).
  rewrite Hl, mutations_app, mutations_began. simpl.
  clear Hl. induction Hf as [|e l He _ IH]; simpl; [constructor|].
  destruct e; simpl in *; auto.
Qed.

End WholeRun.

(* ===================================================================== *)
(** * The claims *)

Section Claims.

Variable stdout : string.
Variable env : Env.

(** ** C3: no session and no user action *)

(** C3 (amended): when the run has no session after lines 78-82 (none
    exists and, if force login is on, the forced login yields none
    either), the save was not triggered by the user, and the client
    initialisation, the git lookup and the file read resolve, the run
    posts exactly one reply, [{displayShare: false}], submits nothing and
    shows no warning. *)
Theorem no_session_short_circuit w :
  noSession env -> msg_isUserAction env = false -> contextOk env ->
  let t := trace (run stdout env w) in
  replies t = [displayShareFalse env] /\ mutations t = [] /\ warnings t = [].
Proof.
  intros Hno Hu Hctx.
  apply (run_observed stdout env w
           (fun r m x => r = [displayShareFalse env] /\ m = [] /\ x = [])).
  intros w1 Hlive R0 M0 W0. unfold body, pipeline. do 2 wp_step.
  apply wp_gate_skipped; [assumption | assumption |].
  intros w' (R & M & W). wp_simpl.
  apply wp_without_session; [assumption|].
  intros w2 R2 M2 W2. wp_simpl. rewrite R2, M2, W2, R, M, W, R0, M0, W0. auto.
Qed.

(** ** C4: the authentication race times out *)

(** C4: a run without a session, triggered by the user, whose
    authentication event never fires and which no newer invocation
    supersedes before the timer fires, posts exactly one reply,
    [{displayShare: false}] (so no reply with [hasErrors]), shows the
    warning and submits nothing. *)
Theorem auth_timeout_outcome w :
  interactive env -> undisturbed env ->
  (forall s, authSignal env <> AuthFired s) ->
  let t := trace (run stdout env w) in
  replies t = [displayShareFalse env] /\ mutations t = []
  /\ warnings t = [timeoutWarning].
Proof.
  intros Hint Hund Hsig.
  apply (run_observed stdout env w
           (fun r m x => r = [displayShareFalse env] /\ m = []
                         /\ x = [timeoutWarning])).
  intros w1 Hlive R0 M0 W0. unfold body, pipeline. do 2 wp_step.
  apply wp_gate_timeout; try assumption.
  intros w' R M W. wp_simpl. rewrite R, M, W, R0, M0, W0. auto.
Qed.

(** ** C1: cancellation *)

(** C1 (amended): a run that goes into the interactive login and whose
    token is cancelled at a suspension up to and including the
    authentication race posts no reply (and submits nothing, warns
    nobody): the token is tested at lines 98 and 116 only. *)
Theorem cancelled_in_gate_posts_nothing w :
  interactive env -> supersededInGate env ->
  let t := trace (run stdout env w) in
  replies t = [] /\ mutations t = [] /\ warnings t = [].
Proof.
  intros Hint Hsup.
  apply (run_observed stdout env w (fun r m x => r = [] /\ m = [] /\ x = [])).
  intros w1 Hlive R0 M0 W0. unfold body, pipeline. do 2 wp_step.
  apply wp_gate_superseded; try assumption.
  intros w' (R & M & W). wp_simpl. rewrite R, M, W, R0, M0, W0. auto.
Qed.

(** ** C6: a lookup finds nothing *)

(** C6: when the run holds a session, every collaborator awaited before
    the lookups resolves, and the notebook snapshot, the target cell or
    its terminal is not found, the run posts exactly one reply, with
    [hasErrors: true] and the message of the Error thrown, and submits
    nothing. *)
Theorem not_found_fails_once w message :
  SignedIn env -> collectorOk env -> NotFound env message ->
  let t := trace (run stdout env w) in
  replies t = [failureReply env message] /\ mutations t = [].
Proof.
  intros Hin Hok Hnf t. subst t.
  rewrite run_eq, replies_endRun, mutations_endRun.
  pose proof (not_found_body stdout Hin Hok Hnf (live_began w)) as H.
  unfold wp in H. rewrite replies_began, mutations_began in H. exact H.
Qed.

End Claims.

(** C3 fails as worded: with force login on, a run that finds no existing
    session obtains one and goes on to submit. *)
Lemma forced_login_submits :
  ~ shortCircuitAsStated Sample.stdoutMime Scenario.forcedLogin idle.
Proof.
  intros H. specialize (H eq_refl eq_refl eq_refl).
  vm_compute in H. destruct H as (_ & H & _). discriminate H.
Qed.

(** An auto-save by a signed-out user meets the conditions of C3. *)
Lemma no_session_short_circuit_witness :
  let t := trace (run Sample.stdoutMime Scenario.anonymousAutoSave idle) in
  replies t = [displayShareFalse Scenario.anonymousAutoSave]
  /\ mutations t = [] /\ warnings t = [].
Proof.
  apply (@no_session_short_circuit Sample.stdoutMime Scenario.anonymousAutoSave idle).
  - repeat split; try reflexivity; intros; discriminate.
  - reflexivity.
  - repeat split; intros; reflexivity.
Defined.

(** A save by a signed-out user who never signs in, started while an
    earlier invocation is in flight, meets the conditions of C4. *)
Lemma auth_timeout_outcome_witness :
  let t := trace (run Sample.stdoutMime (Scenario.userSave Sample.never) Sample.busy) in
  replies t = [displayShareFalse (Scenario.userSave Sample.never)]
  /\ mutations t = [] /\ warnings t = [timeoutWarning].
Proof.
  apply (@auth_timeout_outcome Sample.stdoutMime (Scenario.userSave Sample.never)
           Sample.busy).
  - repeat split; try reflexivity; intros; discriminate.
  - repeat split; intros; reflexivity.
  - intros s; discriminate.
Defined.

(** C1 fails as worded: a run that holds a session and is superseded while
    it waits for the git context still posts its reply. *)
Lemma cancelled_after_gate_still_replies :
  ~ silentCancelAsStated Sample.stdoutMime
      (Scenario.legacySave (Sample.during AwGitContext) (Sample.host "dev-box" None))
      Sample.busy.
Proof.
  intros H.
  assert (Hc : cancelledBeforeReply
                 (Scenario.legacySave (Sample.during AwGitContext)
                                      (Sample.host "dev-box" None))
                 (trace (run Sample.stdoutMime
                           (Scenario.legacySave (Sample.during AwGitContext)
                                                (Sample.host "dev-box" None))
                           Sample.busy))).
  { exists [ECancel 0; EInstall 1; ESuspend AwCurrentSession; ESuspend AwInitClient].
    exists AwGitContext. eexists. split; [vm_compute; reflexivity|].
    split; reflexivity. }
  specialize (H Hc). vm_compute in H. discriminate H.
Qed.

(** The same save, superseded while the race is pending, meets the
    conditions of C1 as amended. *)
Lemma cancelled_in_gate_posts_nothing_witness :
  let t := trace (run Sample.stdoutMime (Scenario.userSave (Sample.during AwAuthRace))
                      Sample.busy) in
  replies t = [] /\ mutations t = [] /\ warnings t = [].
Proof.
  apply (@cancelled_in_gate_posts_nothing Sample.stdoutMime
           (Scenario.userSave (Sample.during AwAuthRace)) Sample.busy).
  - repeat split; try reflexivity; intros; discriminate.
  - right. right. right. reflexivity.
Defined.

(** A legacy-variant save of a cell that is gone from the editor meets the
    conditions of C6. *)
Lemma not_found_fails_once_witness :
  let t := trace (run Sample.stdoutMime Scenario.cellGone idle) in
  replies t = [failureReply Scenario.cellGone "Cell not found"] /\ mutations t = [].
Proof.
  apply (@not_found_fails_once Sample.stdoutMime Scenario.cellGone idle).
  - apply (signed_current Scenario.cellGone (s := Sample.alice)); reflexivity.
  - repeat split; intros; reflexivity.
  - apply cell_not_found; reflexivity.
Defined.

(* ===================================================================== *)
(** * Claims on what is submitted *)

Lemma keepStdout_subset stdout l : StdoutSubset stdout l (keepStdout stdout l).
Proof.
  intros item. unfold keepStdout. rewrite filter_In, String.eqb_eq. tauto.
Qed.

Lemma redactOutputs_subset stdout l :
  Forall2 (fun o o' => StdoutSubset stdout (itemsOf o) (itemsOf o')
                       /\ output_metadata o' = output_metadata o)
          l (map (redactOutput stdout) l).
Proof.
  induction l as [|o l IH]; simpl; constructor; auto.
  split; [apply keepStdout_subset | reflexivity].
Qed.

Lemma redactCell_subset stdout cell :
  Forall2 (fun o o' => StdoutSubset stdout (itemsOf o) (itemsOf o')
                       /\ output_metadata o' = output_metadata o)
          (outputsOf cell) (outputsOf (redactCell stdout cell)).
Proof.
  change (outputsOf (redactCell stdout cell))
    with (map (redactOutput stdout) (outputsOf cell)).
  apply redactOutputs_subset.
Qed.

Lemma findCell_target env notebook cell :
  findCell env notebook = Some cell ->
  In cell (cells notebook) /\ cell_metadata_id cell = Some (msg_id env).
Proof.
  unfold findCell. intros H. apply find_some in H. destruct H as [Hin Hid].
  split; [exact Hin|]. destruct (cell_metadata_id cell) as [i|]; [|discriminate].
  apply String.eqb_eq in Hid. congruence.
Qed.

Lemma exitCodeOf_spec st : ExitCode st (exitCodeOf st).
Proof.
  destruct st as [st|]; simpl; [|constructor].
  destruct (String.eqb (exit_type st) "exit") eqn:E1.
  - apply String.eqb_eq in E1. constructor; exact E1.
  - apply String.eqb_neq in E1.
    destruct (String.eqb (exit_type st) "error") eqn:E2.
    + apply String.eqb_eq in E2. constructor; exact E2.
    + apply String.eqb_neq in E2. constructor; assumption.
Qed.

Lemma pidOf_spec p : pidOf p = match p with Some n => n | None => 0%Z end.
Proof.
  destruct p as [n|]; simpl; [|reflexivity].
  destruct (Z.eqb n 0) eqn:E; [|reflexivity]. apply Z.eqb_eq in E. congruence.
Qed.

Lemma resolveHostname_coded o : hostnameAsCoded o (resolveHostname o).
Proof.
  unfold hostnameAsCoded, resolveHostname, isLoopback, Js.includes, Js.truthyOpt,
    Js.truthy. simpl.
  destruct (String.eqb (os_hostname o) "localhost") eqn:E1;
    destruct (String.eqb (os_hostname o) "127.0.0.1") eqn:E2;
    rewrite ?String.eqb_eq, ?String.eqb_neq in *; simpl;
    (split; [|split]).
  all: try (intros v _ Hv Hne; rewrite Hv;
            apply String.eqb_neq in Hne; rewrite Hne; reflexivity).
  all: try (intros _ [Hk|Hk]; rewrite Hk; reflexivity).
  all: try (intros Hn; exfalso; apply Hn; auto; fail).
  all: try (intros v [H|H]; congruence).
  all: try (intros [H|H]; congruence).
  all: try reflexivity.
Qed.

Section Submitted.

Variable stdout : string.
Variable env : Env.

(** C5: every mutation of a reporter-variant run carries one cell, the
    target cell of the cached snapshot, and each of its outputs holds
    exactly the items of the source output whose mime type is the stdout
    kind; every mutation of a legacy-variant run has an empty [stderr]. *)
Theorem redaction w :
  Forall (fun m =>
            match m with
            | CreateExtensionCellOutput input =>
                reporterEnabled env = true
                /\ exists notebook cell sent,
                    notebookDataCache env = Some notebook
                    /\ In cell (cells notebook)
                    /\ cell_metadata_id cell = Some (msg_id env)
                    /\ r_notebook_cells input = [sent]
                    /\ Forall2 (fun o o' =>
                                  StdoutSubset stdout (itemsOf o) (itemsOf o')
                                  /\ output_metadata o' = output_metadata o)
                               (outputsOf cell) (outputsOf sent)
            | CreateCellExecution input =>
                reporterEnabled env = false /\ l_stderr input = []
            end)
         (mutations (trace (run stdout env w))).
Proof.
  eapply Forall_impl; [|apply run_mutations_built].
  intros m Hm. destruct Hm as [c notebook cell Hr Hnb Hcell Hh | c cell t fm Hr Hc Ht Hh].
  - split; [exact Hr|]. destruct (findCell_target _ _ Hcell) as [Hin Hid].
    exists notebook, cell, (redactCell stdout cell).
    repeat split; auto. apply redactCell_subset.
  - split; [exact Hr | reflexivity].
Qed.

(** C10: every mutation of a legacy-variant run carries the exit code
    the runner session reports when its exit status has type 'exit', 1
    when the type is 'error' and 0 otherwise (also when there is no
    status), and the process id of the terminal, or 0 when it reports
    none. *)
Theorem legacy_exit_code_and_pid w :
  Forall (fun m =>
            match m with
            | CreateCellExecution input =>
                exists cell terminal,
                  getCellById env (msg_id env) = Some cell
                  /\ getTerminal env (cell_runmeId cell) = Some terminal
                  /\ ExitCode (exitStatusOf terminal) (l_exitCode input)
                  /\ l_pid input = match processId terminal with
                                   | Some n => n
                                   | None => 0%Z
                                   end
            | CreateExtensionCellOutput _ => reporterEnabled env = true
            end)
         (mutations (trace (run stdout env w))).
Proof.
  eapply Forall_impl; [|apply run_mutations_built].
  intros m Hm. destruct Hm as [c notebook cell Hr Hnb Hcell Hh | c cell t fm Hr Hc Ht Hh].
  - exact Hr.
  - exists cell, t. repeat split; auto.
    + apply exitCodeOf_spec.
    + apply pidOf_spec.
Qed.

(** C9 (amended): the hostname every mutation carries is the value of
    K_SERVICE when the OS hostname is 'localhost' or '127.0.0.1' and
    K_SERVICE is set to a non-empty string; it is the OS hostname when
    K_SERVICE is unset or empty, and for every other OS hostname
    whatever K_SERVICE holds. *)
Theorem submitted_hostname w :
  Forall (fun m => hostnameAsCoded (os env) (hostnameOf m))
         (mutations (trace (run stdout env w))).
Proof.
  eapply Forall_impl; [|apply run_mutations_built].
  intros m Hm. destruct Hm as [c notebook cell Hr Hnb Hcell Hh | c cell t fm Hr Hc Ht Hh];
    simpl; rewrite Hh; apply resolveHostname_coded.
Qed.

End Submitted.

(** C9 fails as worded: K_SERVICE set to the empty string is not
    submitted; the OS hostname 'localhost' is. *)
Lemma empty_service_name_not_submitted :
  ~ hostnameClaimAsStated Sample.stdoutMime
      (Scenario.legacySave Sample.never (Sample.host "localhost" (Some ""))) idle.
Proof.
  intros H. unfold hostnameClaimAsStated in H. vm_compute in H.
  inversion H as [|m l [Hv _] _]; subst.
  specialize (Hv EmptyString (or_introl eq_refl) eq_refl). discriminate Hv.
Qed.

(** The two examples of the specification. *)
Example hostname_overridden :
  map hostnameOf (mutations (trace (run Sample.stdoutMime Scenario.reporterSave idle)))
  = ["svc-7"].
Proof. vm_compute. reflexivity. Qed.

Example hostname_kept :
  map hostnameOf
      (mutations (trace (run Sample.stdoutMime
                           (Scenario.legacySave Sample.never
                              (Sample.host "dev-box" (Some "svc-7"))) idle)))
  = ["dev-box"].
Proof. vm_compute. reflexivity. Qed.

(** A snapshot cell with items of three mime types: two stdout items are
    sent, the others are dropped. *)
Example redaction_on_snapshot :
  map (fun m => match m with
                | CreateExtensionCellOutput input =>
                    map (fun c => map (fun o => map mime (itemsOf o)) (outputsOf c))
                        (r_notebook_cells input)
                | CreateCellExecution _ => []
                end)
      (mutations (trace (run Sample.stdoutMime Scenario.reporterSave idle)))
  = [[[[Sample.stdoutMime; Sample.stdoutMime]; []]]].
Proof. vm_compute. reflexivity. Qed.

Example legacy_payload_numbers :
  map (fun m => match m with
                | CreateCellExecution input => (l_exitCode input, l_pid input, l_stderr input)
                | CreateExtensionCellOutput _ => (0%Z, 0%Z, [])
                end)
      (mutations (trace (run Sample.stdoutMime
                           (Scenario.legacySave Sample.never (Sample.host "dev-box" None))
                           idle)))
  = [(3%Z, 4242%Z, [])].
Proof. vm_compute. reflexivity. Qed.

(* ===================================================================== *)
(** * Claims on the single-flight guard and on the listener *)

Section Guard.

Variable stdout : string.
Variable env : Env.

(** C7 (amended): when an invocation starts while a source created
    earlier occupies the slot, its first two effects are the
    cancellation of that source and the installation of a fresh one, so
    no suspension separates them and the start of the run precedes the
    cancellation; the previous source is cancelled when the run ends, and
    nothing disposes it during the run. *)
Theorem guard_swap_cancels_previous w previous :
  currentCts w = Some previous -> previous < length (heap w) ->
  let w' := run stdout env w in
  (exists rest, trace w' = ECancel previous :: EInstall (length (heap w)) :: rest)
  /\ cancelledIn (heap w') previous = true
  /\ disposedIn (heap w') previous = disposedIn (heap w) previous
  /\ ~ In (EDispose previous) (trace w').
Proof.
  intros Hslot Hlt w'. subst w'.
  rewrite run_bodyEnd, endRun_eq. cbn [snd].
  destruct (reaches_trace (reaches_bodyEnd stdout env w)) as (l & Hl & Hf).
  destruct (began_guarded env w) as (Hbt & Hba & _).
  destruct (reaches_guard (reaches_bodyEnd stdout env w) Hbt Hba)
    as (Hlen & Hcan & Hdis & _ & _).
  rewrite began_eq in Hl, Hlen, Hcan, Hdis. cbn [trace heap] in Hl, Hlen, Hcan, Hdis.
  rewrite Hslot in Hl. cbn [app] in Hl.
  assert (Hc2 : cancelledIn (heap (bodyEnd stdout env w)) previous = true).
  { apply Hcan. unfold swappedHeap. rewrite Hslot.
    rewrite cancelledIn_app by (rewrite length_updateAt; exact Hlt).
    apply cancelledIn_cancel_self; exact Hlt. }
  assert (Hd2 : disposedIn (heap (bodyEnd stdout env w)) previous
                = disposedIn (heap w) previous).
  { rewrite Hdis by lia.
    unfold swappedHeap. rewrite Hslot.
    rewrite disposedIn_app by (rewrite length_updateAt; exact Hlt).
    apply disposedIn_cancel. }
  assert (Hnd : ~ In (EDispose previous) l).
  { intros Hin. rewrite Forall_forall in Hf. apply (Hf _ Hin). }
  destruct (currentCts (bodyEnd stdout env w)) as [c|] eqn:Hend.
  - destruct (Nat.eqb c (length (heap w))) eqn:Heq.
    + apply Nat.eqb_eq in Heq. subst c. cbn [trace heap]. repeat split.
      * rewrite Hl. eexists. cbn [app]. reflexivity.
      * rewrite cancelledIn_dispose. exact Hc2.
      * rewrite disposedIn_dispose_other by lia. exact Hd2.
      * rewrite Hl. cbn [app]. intros [H|[H|H]]; try discriminate.
        apply in_app_or in H. destruct H as [H|[H|[H|[]]]]; try discriminate.
        -- exact (Hnd H).
        -- injection H as H. lia.
    + repeat split; auto.
      * rewrite Hl. eexists. reflexivity.
      * rewrite Hl. cbn [app]. intros [H|[H|H]]; try discriminate.
        exact (Hnd H).
  - repeat split; auto.
    + rewrite Hl. eexists. reflexivity.
    + rewrite Hl. cbn [app]. intros [H|[H|H]]; try discriminate.
      exact (Hnd H).
Qed.

(** C8: when the run ends, either no newer invocation began while it was
    suspended, its token is still the one installed, and the run disposes
    its source and clears the slot; or a newer one began, the slot no
    longer holds the run's token (it holds a newer token, or nothing if
    that invocation has ended too), and the run leaves the world as its
    [finally] block found it: slot and store unchanged, its own source
    not disposed. *)
Theorem end_of_run_slot w :
  let before := bodyEnd stdout env w in
  let w' := run stdout env w in
  let token := length (heap w) in
  if existsb (interrupts env) (suspensions (trace w'))
  then currentCts before <> Some token
       /\ w' = before
       /\ disposedIn (heap w') token = false
       /\ ~ In EClearSlot (trace w')
  else currentCts before = Some token
       /\ currentCts w' = None
       /\ disposedIn (heap w') token = true
       /\ In EClearSlot (trace w').
Proof.
  intros before w' token. subst before w' token.
  rewrite run_bodyEnd, endRun_eq. cbn [snd].
  destruct (reaches_trace (reaches_bodyEnd stdout env w)) as (l & Hl & Hf).
  destruct (began_guarded env w) as (Hbt & Hba & _).
  destruct (reaches_guard (reaches_bodyEnd stdout env w) Hbt Hba)
    as (_ & _ & Hdis & _ & _).
  destruct (reaches_guarded (reaches_bodyEnd stdout env w) (began_guarded env w))
    as (Hlt & Ha & Hslot).
  assert (Hfresh : disposedIn (heap (bodyEnd stdout env w)) (length (heap w)) = false).
  { rewrite Hdis by lia.
    rewrite began_eq. cbn [heap]. unfold swappedHeap.
    destruct (currentCts w) as [c|].
    - rewrite <- (length_updateAt markCancelled c (heap w)).
      apply disposedIn_fresh.
    - apply disposedIn_fresh. }
  destruct (existsb (interrupts env) (suspensions (trace (bodyEnd stdout env w))))
    eqn:Hint.
  - assert (Hsame :
              match currentCts (bodyEnd stdout env w) with
              | Some c =>
                  if Nat.eqb c (length (heap w))
                  then {| heap := updateAt markDisposed c (heap (bodyEnd stdout env w));
                          currentCts := None;
                          listeners := listeners (bodyEnd stdout env w);
                          trace := trace (bodyEnd stdout env w)
                                   ++ [EDispose c; EClearSlot] |}
                  else bodyEnd stdout env w
              | None => bodyEnd stdout env w
              end = bodyEnd stdout env w).
    { destruct (currentCts (bodyEnd stdout env w)) as [c|]; [|reflexivity].
      destruct (Nat.eqb c (length (heap w))) eqn:Heq; [|reflexivity].
      apply Nat.eqb_eq in Heq. subst c. contradiction Hslot. reflexivity. }
    rewrite Hsame, Hint. repeat split; auto.
    rewrite Hl, began_eq. cbn [trace]. intros H.
    apply in_app_or in H. destruct H as [H|H].
    + destruct (currentCts w); cbn in H; intuition discriminate.
    + rewrite Forall_forall in Hf. apply (Hf _ H).
  - rewrite Hslot, Nat.eqb_refl. cbn [trace heap currentCts].
    rewrite suspensions_app. cbn [suspensions flat_map app].
    rewrite app_nil_r, Hint. repeat split.
    + apply disposedIn_dispose_self. exact Hlt.
    + apply in_or_app. right. right. left. reflexivity.
Qed.

End Guard.

(** C7 fails as worded: the source of the superseded run is cancelled but
    not disposed. *)
Lemma previous_source_not_disposed :
  ~ guardSwapAsStated Sample.stdoutMime
      (Scenario.legacySave Sample.never (Sample.host "dev-box" None)) Sample.busy 0.
Proof.
  intros H. destruct (H eq_refl (Nat.lt_0_succ 0)) as (_ & _ & Hd).
  vm_compute in Hd. discriminate Hd.
Qed.

(** An invocation started while an earlier one holds the slot meets the
    conditions of C7 as amended. *)
Lemma guard_swap_cancels_previous_witness :
  let env := Scenario.legacySave Sample.never (Sample.host "dev-box" None) in
  let w' := run Sample.stdoutMime env Sample.busy in
  (exists rest, trace w' = ECancel 0 :: EInstall 1 :: rest)
  /\ cancelledIn (heap w') 0 = true
  /\ disposedIn (heap w') 0 = false
  /\ ~ In (EDispose 0) (trace w').
Proof.
  exact (@guard_swap_cancels_previous Sample.stdoutMime
           (Scenario.legacySave Sample.never (Sample.host "dev-box" None))
           Sample.busy 0 eq_refl (Nat.lt_0_succ 0)).
Defined.

(** The two ways a run ends. *)
Example slot_cleared_by_its_own_run :
  let w' := run Sample.stdoutMime Scenario.reporterSave Sample.busy in
  currentCts w' = None /\ heap w' = [ {| isCancellationRequested := true; isDisposed := false |};
                                      {| isCancellationRequested := false; isDisposed := true |} ].
Proof. vm_compute. auto. Qed.

Example slot_left_to_the_newer_run :
  let w' := run Sample.stdoutMime
                (Scenario.legacySave (Sample.during AwSave) (Sample.host "dev-box" None))
                Sample.busy in
  currentCts w' = Some 2 /\ length (heap w') = 3 /\ replies (trace w') <> [].
Proof. vm_compute. repeat split; discriminate. Qed.

Example slot_left_empty_by_the_newer_run :
  let w' := run Sample.stdoutMime
                (Scenario.legacySave (Sample.startsAndEnds AwSave)
                                     (Sample.host "dev-box" None))
                Sample.busy in
  currentCts w' = None
  /\ heap w' = [ {| isCancellationRequested := true; isDisposed := false |};
                 {| isCancellationRequested := true; isDisposed := false |};
                 {| isCancellationRequested := false; isDisposed := true |} ]
  /\ ~ In EClearSlot (trace w').
Proof.
  vm_compute. repeat split. intros H.
  repeat (destruct H as [H|H]; [discriminate|]). exact H.
Qed.

(** C2: on the timeout path, when no auth-state change arrives while the
    race is pending, exactly one listener is added and none is removed:
    the callback registered at line 96 is still in the registry when the
    run has ended (the [finally] block disposes the event emitter only). *)
Theorem listener_survives_timeout stdout env w :
  interactive env -> undisturbed env -> authSignal env = NoAuthChange ->
  let w' := run stdout env w in
  let token := length (heap w) in
  added (trace w') = [token] /\ removed (trace w') = []
  /\ listeners w' = listeners w ++ [token].
Proof.
  intros Hint Hund Hsig w' token. subst w' token.
  assert (H : wp (body stdout env (length (heap w)))
                 (fun _ b => added (trace b) = [length (heap w)]
                             /\ removed (trace b) = []
                             /\ listeners b = listeners w ++ [length (heap w)])
                 (began w)).
  { unfold body, pipeline. do 2 wp_step.
    apply wp_gate_timeout_listener; try assumption; [apply live_began|].
    intros b A R L. wp_simpl. rewrite A, R, L, began_eq. cbn [trace listeners].
    destruct (currentCts w); auto. }
  unfold wp in H. destruct H as (A & R & L).
  rewrite run_eq, endRun_eq. cbn [snd].
  match goal with |- context [currentCts ?b] => destruct (currentCts b) as [c|] end;
    [destruct (Nat.eqb c (length (heap w)))|]; cbn [trace listeners];
    rewrite ?added_app, ?removed_app, ?A, ?R, ?L; auto.
Qed.

(** The save of a signed-out user who never signs in meets the
    conditions of C2's failing path. *)
Lemma listener_survives_timeout_witness :
  let w' := run Sample.stdoutMime (Scenario.userSave Sample.never) idle in
  added (trace w') = [0] /\ removed (trace w') = [] /\ listeners w' = [0].
Proof.
  apply (@listener_survives_timeout Sample.stdoutMime
           (Scenario.userSave Sample.never) idle).
  - repeat split; try reflexivity; intros; discriminate.
  - repeat split; intros; reflexivity.
  - reflexivity.
Defined.

(** What the run does on that path: it disposes the emitter, posts its
    reply, and leaves the callback behind. *)
Example timeout_leaves_listener_registered :
  let w' := run Sample.stdoutMime (Scenario.userSave Sample.never) idle in
  added (trace w') = [0] /\ removed (trace w') = [] /\ listeners w' = [0]
  /\ In EDisposeEmitter (trace w')
  /\ replies (trace w') = [displayShareFalse (Scenario.userSave Sample.never)].
Proof. vm_compute. repeat split; auto 20. Qed.

(** The same holds when the run is superseded during the race, and when
    it returns at line 99. *)
Example cancellation_leaves_listener_registered :
  let w' := run Sample.stdoutMime (Scenario.userSave (Sample.during AwAuthRace)) idle in
  added (trace w') = [0] /\ removed (trace w') = [] /\ listeners w' = [0].
Proof. vm_compute. auto. Qed.

Example early_return_leaves_listener_registered :
  let w' := run Sample.stdoutMime (Scenario.userSave (Sample.during AwOpenCloudPanel)) idle in
  added (trace w') = [0] /\ removed (trace w') = [] /\ listeners w' = [0]
  /\ ~ In EDisposeEmitter (trace w').
Proof.
  vm_compute. repeat split; auto. intros H.
  repeat (destruct H as [H|H]; [discriminate|]). exact H.
Qed.
